(** * A sticky-notes board

    Shallow embedding of [src/components/Notes.tsx]: the [Notes] React
    component, its state ([notes], [maxZIndex], [dragState]), its event
    handlers, its persistence to [localStorage], the listeners of a drag
    and the view it renders.

    Conventions of the embedding.
    - A JavaScript [number] is an exact rational ([Q]); IEEE-754 rounding,
      NaN and the infinities are outside the model.
    - A JavaScript string is a [string] of 8-bit code units. A text with
      a code unit above 255 is outside the model, and [JSON_parse]
      refuses the escape of one, which JavaScript reads.
    - [Date.now()] and [Math.random()] are inputs of the handler that reads
      them; DOM rectangles and pointer coordinates are inputs of the mouse
      handlers.
    - Every handler runs against the state of the latest render, so the
      closure variables [maxZIndex] and [dragState] are the current state.
    - A thrown exception is the [Throw] case of [Result]. *)

From Stdlib Require Import ZArith Zpow_facts QArith Qround Qreduction Lqa Lia Ascii String List.
From stdpp Require Import base list strings gmap.
Import ListNotations.

#[local] Set Warnings "-register-all".

Local Open Scope string_scope.
Local Open Scope Z_scope.

(** ** The JavaScript platform *)

Module JS.

Definition number := Q.
Bind Scope Q_scope with number.

(** [Math.max(a, b)] and [Math.floor(a)]. *)
Definition Math_max (a b : number) : number := if Qle_bool a b then b else a.
Definition Math_floor (a : number) : number := inject_Z (Qfloor a).

(** [arr[i]] for a numeric index: [undefined] ([None]) unless [i] is an
    integer within the array. *)
Definition Array_get {A} (arr : list A) (i : number) : option A :=
  if Qeq_bool (inject_Z (Qfloor i)) i && (0 <=? Qfloor i)
  then nth_error arr (Z.to_nat (Qfloor i))
  else None.

(** *** Number to string

    [Number::toString] prints the decimal expansion of a number: the
    integer part without leading zeros and, when the number is not an
    integer, a point and the fractional digits without trailing zeros. *)

Definition digit_char (d : Z) : ascii := ascii_of_N (48 + Z.to_N d).

Fixpoint digits_fuel (fuel : nat) (n : Z) (acc : string) : string :=
  match fuel with
  | O => acc
  | S f =>
      let acc' := String (digit_char (n mod 10)) acc in
      if n <? 10 then acc' else digits_fuel f (n / 10) acc'
  end.

Definition digits (n : Z) : string :=
  digits_fuel (S (Z.to_nat (Z.log2 n))) n "".

Fixpoint frac_digits (k : nat) (v : Z) : string :=
  match k with
  | O => ""
  | S k' =>
      String (digit_char (v / 10 ^ Z.of_nat k'))
             (frac_digits k' (v mod 10 ^ Z.of_nat k'))
  end.

(** The least [k' >= k] with [d] dividing [10 ^ k'], searched for [fuel]
    steps: the number of fractional digits of a reduced fraction over [d]. *)
Fixpoint decimal_places_from (fuel k : nat) (d : positive) : option nat :=
  if (10 ^ Z.of_nat k) mod Zpos d =? 0 then Some k
  else match fuel with
       | O => None
       | S f => decimal_places_from f (S k) d
       end.

Definition decimal_places (d : positive) : option nat :=
  decimal_places_from (Pos.size_nat d) 0 d.

(** Every IEEE double has a finite decimal expansion; a rational without
    one is printed truncated after 17 places. The model prints every digit
    of the exact value, where JavaScript prints the shortest digits that
    read back to the same double, and the exponent notation that
    JavaScript switches to from 1e21 on and below 1e-6 is not modelled:
    the text of a number can differ from the text that the browser
    writes, the value that is read back from it does not. *)
Definition Number_toString (q : number) : string :=
  let q' := Qred q in
  let k := match decimal_places (Qden q') with Some k => k | None => 17%nat end in
  let scaled := Z.abs (Qnum q') * 10 ^ Z.of_nat k / Zpos (Qden q') in
  (if Qnum q' <? 0 then "-" else "")
  ++ digits (scaled / 10 ^ Z.of_nat k)
  ++ match k with
     | O => ""
     | S _ => "." ++ frac_digits k (scaled mod 10 ^ Z.of_nat k)
     end.


(** *** JSON values *)

Inductive JSValue :=
| JNull
| JBool (b : bool)
| JNumber (q : number)
| JString (s : string)
| JArray (elements : list JSValue)
| JObject (members : list (string * JSValue)).

Inductive Exception := SyntaxError | QuotaExceededError.

Inductive Result (A : Type) :=
| Ok (a : A)
| Throw (e : Exception).
Arguments Ok {A} a.
Arguments Throw {A} e.

Definition bind {A B} (r : Result A) (k : A -> Result B) : Result B :=
  match r with
  | Ok a => k a
  | Throw e => Throw e
  end.

(** *** JSON.stringify

    [QuoteJSONString]: the quote, the backslash and the control characters
    are escaped, every other code unit stands for itself. *)

Definition dquote : ascii := "034"%char.
Definition backslash : ascii := "\"%char.

Definition hex_char (d : N) : ascii :=
  if (d <? 10)%N then ascii_of_N (48 + d) else ascii_of_N (87 + d).

Definition quote_char (c : ascii) : string :=
  let n := N_of_ascii c in
  if (n =? 34)%N then String backslash (String dquote "")
  else if (n =? 92)%N then String backslash (String backslash "")
  else if (n =? 8)%N then String backslash "b"
  else if (n =? 12)%N then String backslash "f"
  else if (n =? 10)%N then String backslash "n"
  else if (n =? 13)%N then String backslash "r"
  else if (n =? 9)%N then String backslash "t"
  else if (n <? 32)%N then
    String backslash
      (String "u" (String "0" (String "0"
         (String (hex_char (n / 16)) (String (hex_char (n mod 16)) "")))))
  else String c "".

Fixpoint quote_body (s : string) : string :=
  match s with
  | "" => ""
  | String c s' => quote_char c ++ quote_body s'
  end.

Definition QuoteJSONString (s : string) : string :=
  String dquote (quote_body s ++ String dquote "").

Fixpoint join (sep : string) (l : list string) : string :=
  match l with
  | [] => ""
  | [a] => a
  | a :: l' => a ++ sep ++ join sep l'
  end.

Fixpoint JSON_stringify (v : JSValue) : string :=
  match v with
  | JNull => "null"
  | JBool true => "true"
  | JBool false => "false"
  | JNumber q => Number_toString q
  | JString s => QuoteJSONString s
  | JArray l => "[" ++ join "," (map JSON_stringify l) ++ "]"
  | JObject l =>
      "{" ++ join "," (map (fun kv => QuoteJSONString (fst kv) ++ ":" ++ JSON_stringify (snd kv)) l)
      ++ "}"
  end.

(** *** JSON.parse *)

Definition is_ws (c : ascii) : bool :=
  let n := N_of_ascii c in
  ((n =? 32) || (n =? 9) || (n =? 10) || (n =? 13))%N.

Fixpoint skip_ws (s : string) : string :=
  match s with
  | "" => ""
  | String c s' => if is_ws c then skip_ws s' else s
  end.

Definition digit_val (c : ascii) : option Z :=
  let n := N_of_ascii c in
  if ((48 <=? n) && (n <=? 57))%N then Some (Z.of_N n - 48) else None.

(** The longest run of digits at the head of [s]: its value on top of
    [acc], its length on top of [cnt], and what follows it. *)
Fixpoint read_digits (s : string) (acc : Z) (cnt : nat) : Z * nat * string :=
  match s with
  | "" => (acc, cnt, s)
  | String c s' =>
      match digit_val c with
      | Some d => read_digits s' (acc * 10 + d) (S cnt)
      | None => (acc, cnt, s)
      end
  end.

(** [m * 10 ^ p] as a number. *)
Definition scale10 (m p : Z) : number :=
  if 0 <=? p then inject_Z (m * 10 ^ p) else m # Z.to_pos (10 ^ (- p)).

(** [s] without its first character, when that is [c]. *)
Definition strip_char (c : ascii) (s : string) : option string :=
  match s with
  | "" => None
  | String c' s' => if Ascii.eqb c c' then Some s' else None
  end.

(** The exponent part of a number, after its [e] or [E]. *)
Definition parse_exponent (s : string) : option (Z * string) :=
  let '(eneg, s1) :=
    match strip_char "-" s, strip_char "+" s with
    | Some s', _ => (true, s')
    | None, Some s' => (false, s')
    | None, None => (false, s)
    end in
  let '(e, ce, s2) := read_digits s1 0 0 in
  match ce with
  | O => None
  | S _ => Some ((if (eneg : bool) then - e else e), s2)
  end.

(** A JSON number: [-? int frac? exp?], where [int] is [0] or a run of
    digits that does not start with [0]. [parse_unsigned neg] reads what
    follows the sign. *)
Definition parse_unsigned (neg : bool) (s1 : string) : option (number * string) :=
  let '(i, ci, s2) :=
    match strip_char "0" s1 with
    | Some s' => (0, 1%nat, s')
    | None => read_digits s1 0 0
    end in
  match ci with
  | O => None
  | S _ =>
      let frac :=
        match strip_char "." s2 with
        | Some s' =>
            let '(f, cf, s3) := read_digits s' 0 0 in
            match cf with
            | O => None
            | S _ => Some (f, cf, s3)
            end
        | None => Some (0, O, s2)
        end in
      match frac with
      | None => None
      | Some (f, cf, s3) =>
          let mant := i * 10 ^ Z.of_nat cf + f in
          let mant := if neg then - mant else mant in
          let exp :=
            match strip_char "e" s3, strip_char "E" s3 with
            | Some s', _ => parse_exponent s'
            | None, Some s' => parse_exponent s'
            | None, None => Some (0, s3)
            end in
          match exp with
          | None => None
          | Some (e, rest) => Some (scale10 mant (e - Z.of_nat cf), rest)
          end
      end
  end.

Definition parse_number (s : string) : option (number * string) :=
  match strip_char "-" s with
  | Some s' => parse_unsigned true s'
  | None => parse_unsigned false s
  end.

Definition hex_val (c : ascii) : option N :=
  let n := N_of_ascii c in
  if ((48 <=? n) && (n <=? 57))%N then Some (n - 48)%N
  else if ((97 <=? n) && (n <=? 102))%N then Some (n - 87)%N
  else if ((65 <=? n) && (n <=? 70))%N then Some (n - 55)%N
  else None.

Definition unescape (c : ascii) : option ascii :=
  let n := N_of_ascii c in
  if (n =? 34)%N then Some dquote
  else if (n =? 92)%N then Some backslash
  else if (n =? 47)%N then Some "/"%char
  else if (n =? 98)%N then Some (ascii_of_N 8)
  else if (n =? 102)%N then Some (ascii_of_N 12)
  else if (n =? 110)%N then Some (ascii_of_N 10)
  else if (n =? 114)%N then Some (ascii_of_N 13)
  else if (n =? 116)%N then Some (ascii_of_N 9)
  else None.

Definition cons_char (c : ascii) (r : option (string * string)) : option (string * string) :=
  match r with
  | Some (str, rest) => Some (String c str, rest)
  | None => None
  end.

(** The characters of a string literal after its opening quote, up to and
    including the closing quote. A [\uXXXX] escape above the 8-bit code
    units of the model is refused. *)
Fixpoint parse_string_body (s : string) : option (string * string) :=
  match s with
  | "" => None
  | String c s' =>
      if (N_of_ascii c =? 34)%N then Some ("", s')
      else if (N_of_ascii c =? 92)%N then
        match s' with
        | "" => None
        | String e s'' =>
            if (N_of_ascii e =? 117)%N then
              match s'' with
              | String h1 (String h2 (String h3 (String h4 r))) =>
                  match hex_val h1, hex_val h2, hex_val h3, hex_val h4 with
                  | Some a, Some b, Some c', Some d =>
                      let n := (((a * 16 + b) * 16 + c') * 16 + d)%N in
                      if (n <? 256)%N then cons_char (ascii_of_N n) (parse_string_body r)
                      else None
                  | _, _, _, _ => None
                  end
              | _ => None
              end
            else
              match unescape e with
              | Some ch => cons_char ch (parse_string_body s'')
              | None => None
              end
        end
      else if (N_of_ascii c <? 32)%N then None
      else cons_char c (parse_string_body s')
  end.

Fixpoint strip_prefix (p s : string) : option string :=
  match p, s with
  | "", _ => Some s
  | String a p', String b s' => if Ascii.eqb a b then strip_prefix p' s' else None
  | String _ _, "" => None
  end.

(** Assigning a property: a key that is already there keeps its place and
    takes the new value. *)
Fixpoint set_member (k : string) (v : JSValue) (m : list (string * JSValue))
  : list (string * JSValue) :=
  match m with
  | [] => [(k, v)]
  | (k', v') :: m' =>
      if String.eqb k k' then (k, v) :: m' else (k', v') :: set_member k v m'
  end.

Definition object_of (members : list (string * JSValue)) : JSValue :=
  JObject (fold_left (fun m kv => set_member (fst kv) (snd kv) m) members []).

(** The recursive-descent parser, on [fuel] nested calls. *)
Fixpoint parse_value (fuel : nat) (s : string) : option (JSValue * string) :=
  match fuel with
  | O => None
  | S f =>
      match skip_ws s with
      | "" => None
      | String c r as s0 =>
          if (N_of_ascii c =? 91)%N then
            match strip_char "]" (skip_ws r) with
            | Some r' => Some (JArray [], r')
            | None =>
                match parse_elements f r with
                | Some (l, r') => Some (JArray l, r')
                | None => None
                end
            end
          else if (N_of_ascii c =? 123)%N then
            match strip_char "}" (skip_ws r) with
            | Some r' => Some (JObject [], r')
            | None =>
                match parse_members f r with
                | Some (l, r') => Some (object_of l, r')
                | None => None
                end
            end
          else if (N_of_ascii c =? 34)%N then
            match parse_string_body r with
            | Some (str, r') => Some (JString str, r')
            | None => None
            end
          else if (N_of_ascii c =? 116)%N then
            match strip_prefix "true" s0 with
            | Some r' => Some (JBool true, r')
            | None => None
            end
          else if (N_of_ascii c =? 102)%N then
            match strip_prefix "false" s0 with
            | Some r' => Some (JBool false, r')
            | None => None
            end
          else if (N_of_ascii c =? 110)%N then
            match strip_prefix "null" s0 with
            | Some r' => Some (JNull, r')
            | None => None
            end
          else
            match parse_number s0 with
            | Some (q, r') => Some (JNumber q, r')
            | None => None
            end
      end
  end
with parse_elements (fuel : nat) (s : string) : option (list JSValue * string) :=
  match fuel with
  | O => None
  | S f =>
      match parse_value f s with
      | None => None
      | Some (v, r) =>
          match strip_char "," (skip_ws r), strip_char "]" (skip_ws r) with
          | Some r', _ =>
              match parse_elements f r' with
              | Some (l, r'') => Some (v :: l, r'')
              | None => None
              end
          | None, Some r' => Some ([v], r')
          | None, None => None
          end
      end
  end
with parse_members (fuel : nat) (s : string)
  : option (list (string * JSValue) * string) :=
  match fuel with
  | O => None
  | S f =>
      match strip_char dquote (skip_ws s) with
      | None => None
      | Some r =>
          match parse_string_body r with
          | None => None
          | Some (k, r1) =>
              match strip_char ":" (skip_ws r1) with
              | None => None
              | Some r2 =>
                  match parse_value f r2 with
                  | None => None
                  | Some (v, r3) =>
                      match strip_char "," (skip_ws r3), strip_char "}" (skip_ws r3) with
                      | Some r4, _ =>
                          match parse_members f r4 with
                          | Some (l, r5) => Some ((k, v) :: l, r5)
                          | None => None
                          end
                      | None, Some r4 => Some ([(k, v)], r4)
                      | None, None => None
                      end
                  end
              end
          end
      end
  end.

(** [JSON.parse(s)]: one value, surrounded by white space only; anything
    else throws a [SyntaxError]. The fuel allows two nested calls of the
    parser for every character of the text. *)
Definition JSON_parse (s : string) : Result JSValue :=
  match parse_value (2 * String.length s + 2) s with
  | Some (v, r) =>
      match skip_ws r with
      | "" => Ok v
      | String _ _ => Throw SyntaxError
      end
  | None => Throw SyntaxError
  end.

(** *** localStorage

    A key-value store of strings with a quota on the characters it holds:
    [setItem] throws a [QuotaExceededError] when the new value does not
    fit. *)

Record Storage := {
  items : gmap string string;
  quota : nat;
}.

Definition usage (m : gmap string string) : nat :=
  foldr (fun kv n => (String.length (fst kv) + String.length (snd kv) + n)%nat) O
        (map_to_list m).

Definition getItem (ls : Storage) (k : string) : option string := items ls !! k.

Definition setItem (ls : Storage) (k v : string) : Result Storage :=
  let m := <[k := v]> (items ls) in
  if (usage m <=? quota ls)%nat then Ok {| items := m; quota := quota ls |}
  else Throw QuotaExceededError.

End JS.

Import JS.

(** ** The data model (Notes.tsx, lines 4-29) *)

Record Note := {
  id : string;
  content : string;
  x : number;
  y : number;
  width : number;
  height : number;
  color : string;
  zIndex : number;
}.

Definition COLORS : list string :=
  [ "#FFE066"; "#FF6B6B"; "#4ECDC4"; "#45B7D1";
    "#96CEB4"; "#FFEAA7"; "#DDA0DD"; "#98D8C8" ].

(** [dragState.offset]: its fields [x] and [y] are [px] and [py] here. *)
Record Point := { px : number; py : number }.

Record DragState := {
  isDragging : bool;
  noteId : option string;
  offset : Point;
}.

(** The three [useState] cells of the component. *)
Record Board := {
  notes : list Note;
  maxZIndex : number;
  dragState : DragState;
}.

Definition idle : DragState :=
  {| isDragging := false; noteId := None; offset := {| px := 0; py := 0 |} |}.

(** The inputs of the mouse handlers. *)
Record MouseEvent := { clientX : number; clientY : number }.
Record DOMRect := { left : number; top : number }.

(** ** The handlers (Notes.tsx, lines 65-170) *)

(** [COLORS[Math.floor(Math.random() * COLORS.length)]] for the random
    number [r]. Outside the array JavaScript yields [undefined], which the
    typed model writes as the empty string. *)
Definition pick_color (r : number) : string :=
  default "" (Array_get COLORS (Math_floor (r * inject_Z (Z.of_nat (length COLORS))))%Q).

(** [Date.now().toString()] at the clock reading [now]. *)
Definition stamp (now : Z) : string := Number_toString (inject_Z now).

(** [addNote]: [now] is [Date.now()], and [r1], [r2], [r3] are the three
    successive results of [Math.random()]. *)
Definition addNote (now : Z) (r1 r2 r3 : number) (b : Board) : Board :=
  let newNote :=
    {| id := stamp now;
       content := "New note...";
       x := (r1 * 300)%Q;
       y := (r2 * 200)%Q;
       width := 200%Q;
       height := 200%Q;
       color := pick_color r3;
       zIndex := (maxZIndex b + 1)%Q |} in
  {| notes := notes b ++ [newNote];
     maxZIndex := (maxZIndex b + 1)%Q;
     dragState := dragState b |}.

Definition deleteNote (i : string) (b : Board) : Board :=
  {| notes := filter (fun note => id note <> i) (notes b);
     maxZIndex := maxZIndex b;
     dragState := dragState b |}.

Definition with_content (c : string) (note : Note) : Note :=
  {| id := id note; content := c; x := x note; y := y note;
     width := width note; height := height note;
     color := color note; zIndex := zIndex note |}.

Definition with_color (c : string) (note : Note) : Note :=
  {| id := id note; content := content note; x := x note; y := y note;
     width := width note; height := height note;
     color := c; zIndex := zIndex note |}.

Definition with_zIndex (z : number) (note : Note) : Note :=
  {| id := id note; content := content note; x := x note; y := y note;
     width := width note; height := height note;
     color := color note; zIndex := z |}.

Definition with_position (nx ny : number) (note : Note) : Note :=
  {| id := id note; content := content note; x := nx; y := ny;
     width := width note; height := height note;
     color := color note; zIndex := zIndex note |}.

Definition updateNoteContent (i c : string) (b : Board) : Board :=
  {| notes := (fun note => if decide (id note = i) then with_content c note else note)
                <$> notes b;
     maxZIndex := maxZIndex b;
     dragState := dragState b |}.

Definition updateNoteColor (i c : string) (b : Board) : Board :=
  {| notes := (fun note => if decide (id note = i) then with_color c note else note)
                <$> notes b;
     maxZIndex := maxZIndex b;
     dragState := dragState b |}.

Definition bringToFront (i : string) (b : Board) : Board :=
  let newZIndex := (maxZIndex b + 1)%Q in
  {| notes := (fun note => if decide (id note = i) then with_zIndex newZIndex note else note)
                <$> notes b;
     maxZIndex := newZIndex;
     dragState := dragState b |}.

(** [handleMouseDown]: [rect] is the bounding rectangle of the note element
    and [containerRect] that of the workspace, [None] while the ref is
    empty. *)
Definition handleMouseDown (e : MouseEvent) (rect : DOMRect)
    (containerRect : option DOMRect) (i : string) (b : Board) : Board :=
  match containerRect with
  | None => b
  | Some _ =>
      bringToFront i
        {| notes := notes b;
           maxZIndex := maxZIndex b;
           dragState :=
             {| isDragging := true;
                noteId := Some i;
                offset := {| px := (clientX e - left rect)%Q;
                             py := (clientY e - top rect)%Q |} |} |}
  end.

(** The truthiness of [dragState.noteId]: neither [null] nor empty. *)
Definition truthy_id (o : option string) : option string :=
  match o with
  | Some "" => None
  | other => other
  end.

Definition handleMouseMove (e : MouseEvent) (containerRect : option DOMRect)
    (b : Board) : Board :=
  let d := dragState b in
  if negb (isDragging d) then b
  else match truthy_id (noteId d), containerRect with
       | None, _ => b
       | _, None => b
       | Some i, Some c =>
           let newX := (clientX e - left c - px (offset d))%Q in
           let newY := (clientY e - top c - py (offset d))%Q in
           {| notes := (fun note =>
                          if decide (id note = i)
                          then with_position (Math_max 0 newX) (Math_max 0 newY) note
                          else note) <$> notes b;
              maxZIndex := maxZIndex b;
              dragState := d |}
       end.

Definition handleMouseUp (b : Board) : Board :=
  {| notes := notes b; maxZIndex := maxZIndex b; dragState := idle |}.

Definition clearAllNotes (b : Board) : Board :=
  {| notes := []; maxZIndex := maxZIndex b; dragState := dragState b |}.

(** The board of a fresh component whose [notes] cell starts at [ns]:
    [useState(100)] and the idle drag state (lines 45-54). *)
Definition freshBoard (ns : list Note) : Board :=
  {| notes := ns; maxZIndex := 100%Q; dragState := idle |}.

(** ** Events *)

Inductive Event :=
| AddNote (now : Z) (r1 r2 r3 : number)
| DeleteNote (i : string)
| UpdateNoteContent (i c : string)
| UpdateNoteColor (i c : string)
| BringToFront (i : string)
| MouseDown (e : MouseEvent) (rect : DOMRect) (containerRect : option DOMRect) (i : string)
| MouseMove (e : MouseEvent) (containerRect : option DOMRect)
| MouseUp
| ClearAllNotes.

Definition handle (b : Board) (ev : Event) : Board :=
  match ev with
  | AddNote now r1 r2 r3 => addNote now r1 r2 r3 b
  | DeleteNote i => deleteNote i b
  | UpdateNoteContent i c => updateNoteContent i c b
  | UpdateNoteColor i c => updateNoteColor i c b
  | BringToFront i => bringToFront i b
  | MouseDown e rect c i => handleMouseDown e rect c i b
  | MouseMove e c => handleMouseMove e c b
  | MouseUp => handleMouseUp b
  | ClearAllNotes => clearAllNotes b
  end.

Definition run (b : Board) (evs : list Event) : Board := foldl handle b evs.

(** ** Persistence (Notes.tsx, lines 32-43 and 59-62) *)

(** A note as the object [JSON.stringify] sees: its properties in the
    order [addNote] writes them, which the spreads of the handlers keep.
    A note that the caller supplies with its properties in another order
    is written in that order by JavaScript; the record does not keep the
    order of the properties, and the values read back are the same. *)
Definition note_members (note : Note) : list (string * JSValue) :=
  [ ("id", JString (id note));
    ("content", JString (content note));
    ("x", JNumber (x note));
    ("y", JNumber (y note));
    ("width", JNumber (width note));
    ("height", JNumber (height note));
    ("color", JString (color note));
    ("zIndex", JNumber (zIndex note)) ].

Definition Note_to_js (note : Note) : JSValue := JObject (note_members note).

Definition notes_to_js (ns : list Note) : JSValue := JArray (map Note_to_js ns).

Fixpoint get_member (k : string) (m : list (string * JSValue)) : option JSValue :=
  match m with
  | [] => None
  | (k', v) :: m' => if String.eqb k k' then Some v else get_member k m'
  end.

(** The typed reading of a value as a [Note]: [None] when it is not an
    object with the eight properties at their types. *)
Definition Note_of_js (v : JSValue) : option Note :=
  match v with
  | JObject m =>
      match get_member "id" m, get_member "content" m,
            get_member "x" m, get_member "y" m,
            get_member "width" m, get_member "height" m,
            get_member "color" m, get_member "zIndex" m with
      | Some (JString i), Some (JString c),
        Some (JNumber nx), Some (JNumber ny),
        Some (JNumber w), Some (JNumber h),
        Some (JString col), Some (JNumber z) =>
          Some {| id := i; content := c; x := nx; y := ny;
                  width := w; height := h; color := col; zIndex := z |}
      | _, _, _, _, _, _, _, _ => None
      end
  | _ => None
  end.

Definition notes_of_js (v : JSValue) : option (list Note) :=
  match v with
  | JArray l => mapM Note_of_js l
  | _ => None
  end.

(** The initializer of the [notes] cell (lines 32-43). The value it
    returns is whatever [JSON.parse] produced: nothing checks that it is
    an array of notes. *)
Definition initNotes (ls : Storage) (initialNotes : JSValue) : JSValue :=
  match getItem ls "sticky-notes" with
  | None => initialNotes
  | Some "" => initialNotes
  | Some saved =>
      match JSON_parse saved with
      | Ok v => v
      | Throw _ => initialNotes
      end
  end.

(** The board of a fresh component, when the initial value of [notes] is
    an array of notes. *)
Definition hydrate (ls : Storage) (initialNotes : list Note) : option Board :=
  freshBoard <$> notes_of_js (initNotes ls (notes_to_js initialNotes)).

(** What the component acts on: the storage, and the calls it has made to
    the [onNotesChange] callback. *)
Record World := {
  localStorage : Storage;
  notified : list (list Note);
}.

(** The effect that runs after a render in which [notes] changed (lines
    59-62); [onNotesChange] tells whether the callback prop was given.
    Nothing catches what [setItem] throws. *)
Definition saveEffect (onNotesChange : bool) (ns : list Note) (w : World)
  : Result World :=
  bind (setItem (localStorage w) "sticky-notes" (JSON_stringify (notes_to_js ns)))
    (fun ls' =>
       Ok {| localStorage := ls';
             notified := if onNotesChange then notified w ++ [ns] else notified w |}).

(** Whether the handler of [ev] calls [setNotes]: each call stores a new
    array, so the effect runs after it. *)
Definition sets_notes (b : Board) (ev : Event) : bool :=
  match ev with
  | MouseUp => false
  | MouseDown _ _ c _ => bool_decide (is_Some c)
  | MouseMove _ c =>
      isDragging (dragState b)
      && bool_decide (is_Some (truthy_id (noteId (dragState b))))
      && bool_decide (is_Some c)
  | _ => true
  end.

(** One event: the handler, the render, then the effect. *)
Definition dispatch (onNotesChange : bool) (st : World * Board) (ev : Event)
  : Result (World * Board) :=
  let b' := handle (snd st) ev in
  if sets_notes (snd st) ev
  then bind (saveEffect onNotesChange (notes b') (fst st)) (fun w' => Ok (w', b'))
  else Ok (fst st, b').

(** ** Properties of boards and of event sequences *)

Definition ids (b : Board) : list string := id <$> notes b.

(** The counter is at least the z-index of every note. *)
Definition z_bounded (b : Board) : Prop :=
  forall note, note ∈ notes b -> (zIndex note <= maxZIndex b)%Q.

(** The range of [Math.random()]. *)
Definition unit_interval (r : number) : Prop := (0 <= r)%Q /\ (r < 1)%Q.

(** The clock readings of the creations of a sequence, the ids it creates
    and the ids it passes to [deleteNote]. *)
Fixpoint creation_times (evs : list Event) : list Z :=
  match evs with
  | [] => []
  | AddNote now _ _ _ :: evs' => now :: creation_times evs'
  | _ :: evs' => creation_times evs'
  end.

Definition created_ids (evs : list Event) : list string := stamp <$> creation_times evs.

Fixpoint deleted_ids (evs : list Event) : list string :=
  match evs with
  | [] => []
  | DeleteNote i :: evs' => i :: deleted_ids evs'
  | _ :: evs' => deleted_ids evs'
  end.

Definition create_or_delete (ev : Event) : Prop :=
  match ev with
  | AddNote _ _ _ _ | DeleteNote _ => True
  | _ => False
  end.

(** No creation of [evs] draws an id in [gone] or an id that an earlier
    [deleteNote] of [evs] was given. *)
Fixpoint no_reuse (gone : list string) (evs : list Event) : Prop :=
  match evs with
  | [] => True
  | AddNote now _ _ _ :: evs' => (stamp now ∉ gone) /\ no_reuse gone evs'
  | DeleteNote i :: evs' => no_reuse (i :: gone) evs'
  | _ :: evs' => no_reuse gone evs'
  end.

(** A drag is active: [dragState.isDragging && dragState.noteId]. *)
Definition dragging (b : Board) (i : string) : Prop :=
  isDragging (dragState b) = true /\ truthy_id (noteId (dragState b)) = Some i.

(** What may follow a number in a text: no digit, point or exponent. *)
Definition no_digit_head (s : string) : Prop :=
  match s with
  | "" => True
  | String c _ => digit_val c = None
  end.

Definition number_end (s : string) : Prop :=
  no_digit_head s /\ strip_char "." s = None
  /\ strip_char "e" s = None /\ strip_char "E" s = None.

(** What follows a value inside an array or an object. *)
Definition value_end (s : string) : Prop :=
  exists r, s = String "," r \/ s = String "}" r \/ s = String "]" r.

(** A number with a finite decimal expansion, as every double has. *)
Definition finite_decimal (q : number) : bool :=
  match decimal_places (Qden (Qred q)) with
  | Some _ => true
  | None => false
  end.

Definition finite_note (note : Note) : bool :=
  finite_decimal (x note) && finite_decimal (y note)
  && finite_decimal (width note) && finite_decimal (height note)
  && finite_decimal (zIndex note).

(** The number that [JSON.parse] reads from the text of [q], and a note
    with its numbers read back. *)
Definition reread (q : number) : number :=
  match parse_number (Number_toString q) with
  | Some (q', _) => q'
  | None => q
  end.

Definition reread_value (v : JSValue) : JSValue :=
  match v with
  | JNumber q => JNumber (reread q)
  | other => other
  end.

(** A string, or a number that has a finite decimal expansion. *)
Definition atom (v : JSValue) : Prop :=
  match v with
  | JString _ => True
  | JNumber q => finite_decimal q = true
  | _ => False
  end.

Definition member_text (kv : string * JSValue) : string :=
  QuoteJSONString (fst kv) ++ ":" ++ JSON_stringify (snd kv).

Definition reread_note (note : Note) : Note :=
  {| id := id note; content := content note;
     x := reread (x note); y := reread (y note);
     width := reread (width note); height := reread (height note);
     color := color note; zIndex := reread (zIndex note) |}.

(** The same note: the same strings, and numbers of the same value. *)
Definition note_equiv (n1 n2 : Note) : Prop :=
  id n1 = id n2 /\ content n1 = content n2 /\ color n1 = color n2
  /\ (x n1 == x n2)%Q /\ (y n1 == y n2)%Q
  /\ (width n1 == width n2)%Q /\ (height n1 == height n2)%Q
  /\ (zIndex n1 == zIndex n2)%Q.

(** The note with id [i] lies strictly above every other note. *)
Definition strict_top (i : string) (b : Board) : Prop :=
  forall k k' note other,
    notes b !! k = Some note -> notes b !! k' = Some other ->
    id note = i -> k <> k' -> (zIndex other < zIndex note)%Q.

(** The board with the notes of [b] and the note [i] at the clamped
    position of the pointer event [e]. *)
Definition dragged_to (e : MouseEvent) (c : DOMRect) (i : string) (b : Board)
  : list Note :=
  (fun note =>
     if decide (id note = i)
     then with_position
            (Math_max 0 (clientX e - left c - px (offset (dragState b))))
            (Math_max 0 (clientY e - top c - py (offset (dragState b)))) note
     else note) <$> notes b.

Definition move_events (path : list (MouseEvent * DOMRect)) : list Event :=
  map (fun m => MouseMove (fst m) (Some (snd m))) path.

(** ** Sessions

    A session starts on a storage and dispatches events; the next session
    starts from the storage the previous one left. *)

Definition empty_world (q : nat) : World :=
  {| localStorage := {| items := ∅; quota := q |}; notified := [] |}.

Definition session (start : World * Board) (evs : list Event) : Result (World * Board) :=
  foldl (fun r ev => bind r (fun st => dispatch false st ev)) (Ok start) evs.

Definition reload (r : Result (World * Board)) : option Board :=
  match r with
  | Ok (w, _) => hydrate (localStorage w) []
  | Throw _ => None
  end.

(** A session on an empty storage that creates one note, and one that
    creates two. *)
Definition first_session : Result (World * Board) :=
  session (empty_world 4096, freshBoard [])
    [AddNote 1762075200000 (1 # 2) (1 # 4) 0].

Definition two_note_session : Result (World * Board) :=
  session (empty_world 4096, freshBoard [])
    [AddNote 1762075200000 (1 # 2) (1 # 4) 0;
     AddNote 1762075200001 (1 # 4) (1 # 2) (1 # 2)].

(** ** Scenarios and auxiliary notions of the proofs *)

(** The first character of the text of a number. *)
Definition number_head (c : ascii) : Prop :=
  c = "-"%char \/ exists d, 0 <= d <= 9 /\ c = digit_char d.

Definition note_json (note : Note) : string := JSON_stringify (Note_to_js note).

(** A storage that holds [saved] under the key of the component. *)
Definition stored (saved : string) : Storage :=
  {| items := {["sticky-notes" := saved]}; quota := 4096 |}.

(** Two notes created in the same millisecond. *)
Definition twin_board : Board :=
  run (freshBoard []) [AddNote 1762075200000 0 0 0; AddNote 1762075200000 0 0 0].

(** A note created, deleted and created again in the same millisecond. *)
Definition recreate : list Event :=
  [AddNote 1762075200000 0 0 0; DeleteNote "1762075200000"; AddNote 1762075200000 0 0 0].

(** A note at (50, 50). *)
Definition corner_note : Note :=
  {| id := "1"; content := "New note..."; x := 50; y := 50;
     width := 200; height := 200; color := "#FFE066"; zIndex := 101 |}.

(** A note created at a random position, then dragged. *)
Definition drag_session : list Event :=
  [AddNote 1 (3 # 8) (1 # 5) 0;
   MouseDown {| clientX := 130; clientY := 65 |} {| left := 245 # 2; top := 60 |}
             (Some {| left := 10; top := 20 |}) "1";
   MouseMove {| clientX := 401 # 4; clientY := -20 |} (Some {| left := 10; top := 20 |});
   MouseUp].

Definition five_notes : list Event :=
  [AddNote 1 0 0 0; AddNote 2 (1 # 2) (1 # 2) (1 # 8); AddNote 3 (1 # 4) 0 (1 # 4);
   AddNote 4 0 (3 # 4) (1 # 2); AddNote 5 (7 # 8) (7 # 8) (7 # 8)].

(** Every note lies at non-negative coordinates. *)
Definition positions_nonneg (b : Board) : Prop :=
  forall note, note ∈ notes b -> (0 <= x note)%Q /\ (0 <= y note)%Q.

(** The random numbers of an event are in the range of [Math.random()]. *)
Definition random_ok (ev : Event) : Prop :=
  match ev with
  | AddNote _ r1 r2 r3 => unit_interval r1 /\ unit_interval r2 /\ unit_interval r3
  | _ => True
  end.

(** The numeric inputs of an event have a finite decimal expansion. *)
Definition finite_event (ev : Event) : Prop :=
  match ev with
  | AddNote _ r1 r2 _ => finite_decimal r1 = true /\ finite_decimal r2 = true
  | MouseDown e rect _ _ =>
      finite_decimal (clientX e) = true /\ finite_decimal (clientY e) = true
      /\ finite_decimal (left rect) = true /\ finite_decimal (top rect) = true
  | MouseMove e (Some c) =>
      finite_decimal (clientX e) = true /\ finite_decimal (clientY e) = true
      /\ finite_decimal (left c) = true /\ finite_decimal (top c) = true
  | _ => True
  end.

(** The numbers of a board have a finite decimal expansion. *)
Definition finite_board (b : Board) : Prop :=
  Forall (fun note => finite_note note = true) (notes b)
  /\ finite_decimal (maxZIndex b) = true
  /\ finite_decimal (px (offset (dragState b))) = true
  /\ finite_decimal (py (offset (dragState b))) = true.

(** ** The listeners of a drag (Notes.tsx, lines 95-105)

    While [dragState.isDragging], an effect keeps [handleMouseMove] and
    [handleMouseUp] attached to the document; its cleanup removes them.
    A handler is the event it raises, given the pointer event and the
    rectangle of the workspace. *)
Definition listeners (b : Board)
  : list (string * (MouseEvent -> option DOMRect -> Event)) :=
  if isDragging (dragState b)
  then [("mousemove", fun e c => MouseMove e c); ("mouseup", fun _ _ => MouseUp)]
  else [].

(** ** The view (Notes.tsx, lines 172-254)

    What the component renders, without the class names, the fixed texts
    and the calls of [stopPropagation]: the view offers its callbacks one
    by one, and how the browser turns a gesture into calls is outside the
    model. A callback is the event it raises: [onMouseDown] of a note
    takes the pointer event and the two rectangles that [handleMouseDown]
    reads from the DOM, [addNoteBtn_onClick] the clock reading and the
    three random numbers that [addNote] draws. *)

Record ColorDot := {
  dot_key : string;
  dot_selected : bool;
  dot_backgroundColor : string;
  dot_onClick : Event;
}.

Record StickyNote := {
  key : string;
  style_left : number;
  style_top : number;
  style_width : number;
  style_height : number;
  style_backgroundColor : string;
  style_zIndex : number;
  onMouseDown : MouseEvent -> DOMRect -> option DOMRect -> Event;
  colorPicker : list ColorDot;
  deleteBtn_onClick : Event;
  textarea_value : string;
  textarea_onChange : string -> Event;
}.

Record View := {
  addNoteBtn_onClick : Z -> number -> number -> number -> Event;
  clearAllBtn : option Event;
  notesCount : string;
  stickyNotes : list StickyNote;
  emptyState : bool;
}.

(** One dot of the color picker of [note]. *)
Definition renderDot (note : Note) (c : string) : ColorDot :=
  {| dot_key := c;
     dot_selected := bool_decide (color note = c);
     dot_backgroundColor := c;
     dot_onClick := UpdateNoteColor (id note) c |}.

Definition renderNote (note : Note) : StickyNote :=
  {| key := id note;
     style_left := x note;
     style_top := y note;
     style_width := width note;
     style_height := height note;
     style_backgroundColor := color note;
     style_zIndex := zIndex note;
     onMouseDown := fun e rect containerRect => MouseDown e rect containerRect (id note);
     colorPicker := renderDot note <$> take 4 COLORS;
     deleteBtn_onClick := DeleteNote (id note);
     textarea_value := content note;
     textarea_onChange := fun value => UpdateNoteContent (id note) value |}.

Definition render (b : Board) : View :=
  {| addNoteBtn_onClick := AddNote;
     clearAllBtn := if (0 <? length (notes b))%nat then Some ClearAllNotes else None;
     notesCount :=
       Number_toString (inject_Z (Z.of_nat (length (notes b))))
       ++ " note" ++ (if (length (notes b) =? 1)%nat then "" else "s");
     stickyNotes := renderNote <$> notes b;
     emptyState := (length (notes b) =? 0)%nat |}.

(** The inline style of the older variant of the component
    ([unnamed/part_000], lines 204-207): the cursor over a note. *)
Definition cursor (b : Board) (note : Note) : string :=
  if isDragging (dragState b) && bool_decide (noteId (dragState b) = Some (id note))
  then "grabbing" else "grab".

(** The events that the user can raise on the board [b]: through a
    callback of the view, with random numbers in the range of
    [Math.random()], or through a listener of the document. *)
Inductive offered (b : Board) : Event -> Prop :=
| offered_addNote now r1 r2 r3 :
    unit_interval r1 -> unit_interval r2 -> unit_interval r3 ->
    offered b (addNoteBtn_onClick (render b) now r1 r2 r3)
| offered_clearAll ev :
    clearAllBtn (render b) = Some ev -> offered b ev
| offered_mouseDown sn e rect containerRect :
    sn ∈ stickyNotes (render b) -> offered b (onMouseDown sn e rect containerRect)
| offered_dot sn dot :
    sn ∈ stickyNotes (render b) -> dot ∈ colorPicker sn -> offered b (dot_onClick dot)
| offered_delete sn :
    sn ∈ stickyNotes (render b) -> offered b (deleteBtn_onClick sn)
| offered_change sn value :
    sn ∈ stickyNotes (render b) -> offered b (textarea_onChange sn value)
| offered_listener type handler e containerRect :
    (type, handler) ∈ listeners b -> offered b (handler e containerRect).

(** The boards that the user reaches from the empty board. *)
Inductive ui_reachable : Board -> Prop :=
| ui_start : ui_reachable (freshBoard [])
| ui_step b ev : ui_reachable b -> offered b ev -> ui_reachable (handle b ev).

(** The first render of a component whose [notes] cell starts at [ns],
    and the effect that follows it. *)
Definition mount (onNotesChange : bool) (w : World) (ns : list Note)
  : Result (World * Board) :=
  bind (saveEffect onNotesChange ns w) (fun w' => Ok (w', freshBoard ns)).

(** The storage holds the snapshot of the notes of the board. *)
Definition synced (st : World * Board) : Prop :=
  getItem (localStorage (fst st)) "sticky-notes"
  = Some (JSON_stringify (notes_to_js (notes (snd st)))).

(** The events that raise the counter. *)
Definition raises (ev : Event) : bool :=
  match ev with
  | AddNote _ _ _ _ | BringToFront _ | MouseDown _ _ (Some _) _ => true
  | _ => false
  end.

(** The events that keep the collection: no note is added or removed. *)
Definition keeps_collection (ev : Event) : Prop :=
  match ev with
  | AddNote _ _ _ _ | DeleteNote _ | ClearAllNotes => False
  | _ => True
  end.

(** Two notes with z-indexes of the same value have the same id. *)
Definition z_separates (b : Board) : Prop :=
  forall n1 n2, n1 ∈ notes b -> n2 ∈ notes b ->
    (zIndex n1 == zIndex n2)%Q -> id n1 = id n2.

(** What the user can see of a note of the board [b]: an id, a color of
    the palette, a position at or after the origin of the workspace, the
    fixed size, and a z-index above 100 that the counter bounds. *)
Definition well_formed (b : Board) (note : Note) : Prop :=
  id note <> ""
  /\ color note ∈ COLORS
  /\ (0 <= x note)%Q /\ (0 <= y note)%Q
  /\ width note = 200%Q /\ height note = 200%Q
  /\ (100 < zIndex note)%Q /\ (zIndex note <= maxZIndex b)%Q.

(** The counter is at least 100, the notes are well formed, and the drag
    state is idle or holds the id of a note. *)
Definition ui_invariant (b : Board) : Prop :=
  (100 <= maxZIndex b)%Q
  /\ (forall note, note ∈ notes b -> well_formed b note)
  /\ (dragState b = idle
      \/ exists i, i <> "" /\ isDragging (dragState b) = true
                   /\ noteId (dragState b) = Some i).

(** The first note of a session, created at the clock reading 1. *)
Definition first_note : Note :=
  {| id := stamp 1; content := "New note...";
     x := (3 # 8) * 300; y := (1 # 5) * 200; width := 200; height := 200;
     color := pick_color 0; zIndex := 100 + 1 |}.

(** [newX] and [newY] of [handleMouseMove] (lines 72-73) on the board
    [b]: the pointer, less the origin of the workspace and the grab
    offset. *)
Definition newX (e : MouseEvent) (c : DOMRect) (b : Board) : number :=
  (clientX e - left c - px (offset (dragState b)))%Q.

Definition newY (e : MouseEvent) (c : DOMRect) (b : Board) : number :=
  (clientY e - top c - py (offset (dragState b)))%Q.




(** A second note beside [corner_note], and the board of the two, in a
    workspace at (10, 20), after a press on the first, grabbed at its
    point (10, 10). *)
Definition far_note : Note :=
  {| id := "2"; content := "New note..."; x := 5; y := 5;
     width := 200; height := 200; color := "#FF6B6B"; zIndex := 102 |}.


(** * Proofs *)

#[local] Set Warnings "-clear-no-such-hyp".

Ltac elem_by_compute := apply list_elem_of_In; vm_compute; tauto.

(** ** Decimal digits *)

Lemma append_nil (s : string) : "" ++ s = s.
Proof. reflexivity. Qed.

Lemma append_String (c : ascii) (s t : string) : String c s ++ t = String c (s ++ t).
Proof. reflexivity. Qed.

Lemma append_assoc (a b c : string) : (a ++ b) ++ c = a ++ (b ++ c).
Proof. induction a as [|x a IH]; [done|]. by rewrite !append_String, IH. Qed.

Lemma digit_val_char (d : Z) : 0 <= d <= 9 -> digit_val (digit_char d) = Some d.
Proof.
  intros Hd.
  assert (d = 0 \/ d = 1 \/ d = 2 \/ d = 3 \/ d = 4 \/ d = 5 \/ d = 6 \/ d = 7
          \/ d = 8 \/ d = 9) as Hc by lia.
  repeat (destruct Hc as [->|Hc]; [reflexivity|]). by subst.
Qed.

Lemma read_digits_frac (k : nat) : forall v rest acc cnt,
  0 <= v < 10 ^ Z.of_nat k -> no_digit_head rest ->
  read_digits (frac_digits k v ++ rest) acc cnt
  = (acc * 10 ^ Z.of_nat k + v, (cnt + k)%nat, rest).
Proof.
  induction k as [|k IH]; intros v rest acc cnt Hv Hrest.
  - cbn in Hv. assert (v = 0) as -> by lia. cbn [frac_digits].
    rewrite append_nil, Z.mul_1_r, Z.add_0_r, Nat.add_0_r.
    destruct rest as [|c r]; [done|]. unfold no_digit_head in Hrest.
    cbn [read_digits]. by rewrite Hrest.
  - rewrite Nat2Z.inj_succ, Z.pow_succ_r in Hv by lia.
    cbn [frac_digits]. rewrite append_String. cbn [read_digits].
    assert (0 < 10 ^ Z.of_nat k) as Hp by (apply Z.pow_pos_nonneg; lia).
    assert (0 <= v / 10 ^ Z.of_nat k <= 9) as Hd.
    { split; [apply Z.div_pos; lia|].
      assert (v / 10 ^ Z.of_nat k < 10); [|lia].
      apply Z.div_lt_upper_bound; lia. }
    rewrite digit_val_char by done.
    rewrite IH by (done || by apply Z.mod_pos_bound).
    rewrite Nat2Z.inj_succ, Z.pow_succ_r by lia.
    pose proof (Z.div_mod v (10 ^ Z.of_nat k)) as Hdm.
    replace (S cnt + k)%nat with (cnt + S k)%nat by lia.
    do 2 f_equal. nia.
Qed.

Lemma frac_digits_snoc (k : nat) : forall v, 0 <= v < 10 ^ Z.of_nat (S k) ->
  frac_digits (S k) v = frac_digits k (v / 10) ++ String (digit_char (v mod 10)) "".
Proof.
  induction k as [|k IH]; intros v Hv.
  - cbn [frac_digits]. rewrite append_nil.
    change (10 ^ Z.of_nat 0) with 1. change (10 ^ Z.of_nat 1) with 10 in Hv.
    by rewrite Z.div_1_r, Z.mod_small.
  - change (frac_digits (S (S k)) v)
      with (String (digit_char (v / 10 ^ Z.of_nat (S k)))
                   (frac_digits (S k) (v mod 10 ^ Z.of_nat (S k)))).
    assert (0 < 10 ^ Z.of_nat k) as Hp by (apply Z.pow_pos_nonneg; lia).
    assert (10 ^ Z.of_nat (S k) = 10 * 10 ^ Z.of_nat k) as Hs
      by (rewrite Nat2Z.inj_succ, Z.pow_succ_r; lia).
    rewrite IH by (apply Z.mod_pos_bound; lia).
    cbn [frac_digits]. rewrite append_String. rewrite Hs.
    rewrite <- (Z.div_div v 10) by lia.
    rewrite Z.rem_mul_r by lia.
    rewrite (Z.mul_comm 10 (_ mod _)), Z.div_add, Z.mod_add by lia.
    rewrite Z.mod_mod by lia.
    rewrite (Z.div_small (v mod 10)) by (apply Z.mod_pos_bound; lia).
    by rewrite Z.add_0_l.
Qed.

Lemma append_nil_r (s : string) : s ++ "" = s.
Proof. induction s as [|c s IH]; [done|]. by rewrite append_String, IH. Qed.

Lemma digits_fuel_frac (fuel : nat) : forall n acc,
  0 <= n < 2 ^ Z.of_nat fuel -> (1 <= fuel)%nat ->
  exists k, digits_fuel fuel n acc = frac_digits (S k) n ++ acc
            /\ n < 10 ^ Z.of_nat (S k)
            /\ (n = 0 /\ k = O \/ 10 ^ Z.of_nat k <= n).
Proof.
  induction fuel as [|f IH]; intros n acc Hn Hf; [lia|].
  cbn [digits_fuel]. destruct (Z.ltb_spec n 10) as [Hlt|Hge].
  - exists O. split; [|split].
    + cbn [frac_digits]. change (10 ^ Z.of_nat 0) with 1.
      by rewrite Z.div_1_r, Z.mod_small, append_String, append_nil by lia.
    + change (10 ^ Z.of_nat 1) with 10. lia.
    + change (10 ^ Z.of_nat 0) with 1. lia.
  - rewrite Nat2Z.inj_succ, Z.pow_succ_r in Hn by lia.
    assert (0 < 2 ^ Z.of_nat f) as Hp by (apply Z.pow_pos_nonneg; lia).
    assert (1 <= n / 10) as Hq by (apply Z.div_le_lower_bound; lia).
    assert (n / 10 < 2 ^ Z.of_nat f) as Hq' by (apply Z.div_lt_upper_bound; lia).
    assert (1 <= f)%nat as Hf'.
    { destruct f; [|lia]. change (2 ^ Z.of_nat 0) with 1 in Hq'. lia. }
    destruct (IH (n / 10) (String (digit_char (n mod 10)) acc)) as (k & Hk & Hub & Hlb);
      [lia|done|].
    assert (10 ^ Z.of_nat (S (S k)) = 10 * 10 ^ Z.of_nat (S k)) as Hs
      by (rewrite (Nat2Z.inj_succ (S k)), Z.pow_succ_r; lia).
    assert (10 ^ Z.of_nat (S k) = 10 * 10 ^ Z.of_nat k) as Hs'
      by (rewrite (Nat2Z.inj_succ k), Z.pow_succ_r; lia).
    pose proof (Z.div_mod n 10) as Hdm. pose proof (Z.mod_pos_bound n 10) as Hmb.
    exists (S k). split; [|split].
    + rewrite Hk. rewrite (frac_digits_snoc (S k) n) by lia.
      by rewrite append_assoc, append_String, append_nil.
    + lia.
    + right. lia.
Qed.

Lemma digits_frac (n : Z) : 0 <= n ->
  exists k, digits n = frac_digits (S k) n
            /\ n < 10 ^ Z.of_nat (S k)
            /\ (n = 0 /\ k = O \/ 10 ^ Z.of_nat k <= n).
Proof.
  intros Hn. unfold digits.
  destruct (digits_fuel_frac (S (Z.to_nat (Z.log2 n))) n "") as (k & Hk & H);
    [|lia|].
  - split; [done|]. rewrite Nat2Z.inj_succ, Z2Nat.id by apply Z.log2_nonneg.
    destruct (Z.eq_dec n 0) as [->|Hne]; [done|]. apply Z.log2_spec. lia.
  - exists k. by rewrite Hk, append_nil_r.
Qed.

Lemma strip_char_digit (c : ascii) (d : Z) (s : string) :
  0 <= d <= 9 -> digit_val c = None -> strip_char c (String (digit_char d) s) = None.
Proof.
  intros Hd Hc. cbn [strip_char]. destruct (Ascii.eqb_spec c (digit_char d)) as [->|]; [|done].
  by rewrite digit_val_char in Hc.
Qed.

Lemma strip_char_zero_digit (d : Z) (s : string) :
  1 <= d <= 9 -> strip_char "0" (String (digit_char d) s) = None.
Proof.
  intros Hd.
  assert (d = 1 \/ d = 2 \/ d = 3 \/ d = 4 \/ d = 5 \/ d = 6 \/ d = 7
          \/ d = 8 \/ d = 9) as Hc by lia.
  repeat (destruct Hc as [->|Hc]; [reflexivity|]). by subst.
Qed.

Lemma decimal_places_from_divides (fuel : nat) : forall k0 d k,
  decimal_places_from fuel k0 d = Some k -> (10 ^ Z.of_nat k) mod Zpos d = 0.
Proof.
  induction fuel as [|f IH]; intros k0 d k; cbn [decimal_places_from];
    destruct (Z.eqb_spec (10 ^ Z.of_nat k0 mod Z.pos d) 0) as [He|Hne];
    intros Hk; simplify_eq; eauto.
Qed.

Lemma scale10_neg (m : Z) (k : nat) :
  (scale10 m (0 - Z.of_nat k) == m # Z.to_pos (10 ^ Z.of_nat k))%Q.
Proof.
  unfold scale10. destruct (Z.leb_spec 0 (0 - Z.of_nat k)) as [H|H].
  - assert (k = O) as -> by lia. unfold Qeq. cbn. lia.
  - by replace (- (0 - Z.of_nat k)) with (Z.of_nat k) by lia.
Qed.

Lemma number_end_no_digit rest : number_end rest -> no_digit_head rest.
Proof. by intros [? _]. Qed.

Lemma parse_unsigned_decimal (neg : bool) (i f : Z) (k : nat) (rest : string) :
  0 <= i -> 0 <= f < 10 ^ Z.of_nat k -> number_end rest ->
  parse_unsigned neg
    (digits i ++ match k with
                 | O => ""
                 | S _ => "." ++ frac_digits k f
                 end ++ rest)
  = Some (scale10 (if neg then - (i * 10 ^ Z.of_nat k + f) else i * 10 ^ Z.of_nat k + f)
                  (0 - Z.of_nat k), rest).
Proof.
  intros Hi Hf (Hnd & Hdot & He & HE).
  set (tail := match k with O => "" | S _ => "." ++ frac_digits k f end ++ rest).
  assert (no_digit_head tail) as Htail.
  { unfold tail. destruct k; [by rewrite append_nil|]. done. }
  assert (match strip_char "." tail with
          | Some s' =>
              let '(f, cf, s3) := read_digits s' 0 0 in
              match cf with O => None | S _ => Some (f, cf, s3) end
          | None => Some (0, O, tail)
          end = Some (f, k, rest)) as Hfrac.
  { unfold tail. destruct k as [|k'].
    - rewrite append_nil, Hdot. cbn in Hf. by assert (f = 0) as -> by lia.
    - rewrite append_assoc. cbn [strip_char String.append]. 
      change ("." ++ ?s) with (String "." s). cbn [strip_char Ascii.eqb Bool.eqb].
      rewrite read_digits_frac by done. by rewrite Z.mul_0_l, Z.add_0_l, Nat.add_0_l. }
  assert (exists ci, match strip_char "0" (digits i ++ tail) with
          | Some s' => (0, 1%nat, s')
          | None => read_digits (digits i ++ tail) 0 0
          end = (i, S ci, tail)) as [ci Hint].
  { destruct (digits_frac i Hi) as (ki & Hki & Hub & [[-> ->]|Hlb]).
    - by exists O.
    - exists ki. rewrite Hki.
      assert (0 < 10 ^ Z.of_nat ki) as Hp by (apply Z.pow_pos_nonneg; lia).
      rewrite Nat2Z.inj_succ, Z.pow_succ_r in Hub by lia.
      assert (1 <= i / 10 ^ Z.of_nat ki <= 9) as Hd.
      { split; [apply Z.div_le_lower_bound; lia|].
        assert (i / 10 ^ Z.of_nat ki < 10); [|lia]. apply Z.div_lt_upper_bound; lia. }
      cbn [frac_digits]. rewrite append_String, strip_char_zero_digit by done.
      rewrite <- append_String.
      change (String (digit_char (i / 10 ^ Z.of_nat ki))
                (frac_digits ki (i mod 10 ^ Z.of_nat ki)))
        with (frac_digits (S ki) i).
      rewrite read_digits_frac; [|rewrite Nat2Z.inj_succ, Z.pow_succ_r; lia|done].
      by rewrite Z.mul_0_l, Z.add_0_l, Nat.add_0_l. }
  unfold parse_unsigned. rewrite Hint. cbn zeta. rewrite Hfrac, He, HE. done.
Qed.

Lemma Qred_inject_Z (a : Z) : Qred (inject_Z a) = inject_Z a.
Proof.
  pose proof (Qred_correct (inject_Z a)) as He.
  pose proof (gcd_Qred (inject_Z a)) as Hg.
  destruct (Qred (inject_Z a)) as [n d]. unfold Qeq in He. cbn in He, Hg.
  assert (n = a * Z.pos d) as -> by lia.
  rewrite (Z.mul_comm a), Z.gcd_comm, Z.gcd_mul_diag_l in Hg by lia.
  assert (d = 1%positive) as -> by lia. unfold inject_Z. f_equal. lia.
Qed.

Lemma parse_number_toString (q : number) :
  finite_decimal q = true ->
  exists q', (q' == q)%Q /\ forall rest, number_end rest ->
    parse_number (Number_toString q ++ rest) = Some (q', rest).
Proof.
  intros Hfin. unfold finite_decimal in Hfin. unfold Number_toString. cbv zeta.
  pose proof (Qred_correct q) as Hq.
  destruct (Qred q) as [n d]. cbn [Qnum Qden] in *.
  destruct (decimal_places d) as [k|] eqn:Hk; [|done].
  apply decimal_places_from_divides in Hk.
  assert (0 < 10 ^ Z.of_nat k) as Hp by (apply Z.pow_pos_nonneg; lia).
  set (sc := Z.abs n * 10 ^ Z.of_nat k / Z.pos d).
  assert (sc * Z.pos d = Z.abs n * 10 ^ Z.of_nat k) as Hsc.
  { unfold sc. apply Z.mod_divide in Hk as [c Hc]; [|lia].
    rewrite Hc, Z.mul_assoc, Z.div_mul by lia. lia. }
  assert (0 <= sc) as Hsc0 by (apply Z.div_pos; lia).
  pose proof (Z.div_mod sc (10 ^ Z.of_nat k)) as Hdm.
  pose proof (Z.mod_pos_bound sc (10 ^ Z.of_nat k) Hp) as Hmb.
  assert (0 <= sc / 10 ^ Z.of_nat k) as Hi by (apply Z.div_pos; lia).
  exists (scale10 (if n <? 0 then - sc else sc) (0 - Z.of_nat k)).
  split.
  - rewrite scale10_neg, <- Hq. unfold Qeq. cbn [Qnum Qden].
    rewrite Z2Pos.id by lia.
    destruct (Z.ltb_spec n 0); lia.
  - intros rest Hrest. rewrite !append_assoc.
    unfold parse_number. destruct (Z.ltb_spec n 0) as [Hneg|Hpos].
    + rewrite append_String, append_nil. cbn [strip_char Ascii.eqb Bool.eqb].
      rewrite parse_unsigned_decimal by done. do 3 f_equal. lia.
    + rewrite append_nil.
      destruct (digits_frac _ Hi) as (ki & Hki & Hub & Hlb).
      rewrite Hki at 1. cbn [frac_digits]. rewrite append_String.
      rewrite strip_char_digit; [|split|done].
      * rewrite parse_unsigned_decimal by done. do 3 f_equal. lia.
      * apply Z.div_pos; [lia|]. apply Z.pow_pos_nonneg; lia.
      * assert (sc / 10 ^ Z.of_nat k / 10 ^ Z.of_nat ki < 10); [|lia].
        assert (0 < 10 ^ Z.of_nat ki) by (apply Z.pow_pos_nonneg; lia).
        apply Z.div_lt_upper_bound; [lia|].
        rewrite Nat2Z.inj_succ, Z.pow_succ_r in Hub; lia.
Qed.

Lemma number_end_nil : number_end "".
Proof. done. Qed.

Lemma reread_equiv (q : number) : finite_decimal q = true -> (reread q == q)%Q.
Proof.
  intros Hq. destruct (parse_number_toString q Hq) as (q' & Heq & Hparse).
  unfold reread. specialize (Hparse "" number_end_nil).
  rewrite append_nil_r in Hparse. by rewrite Hparse.
Qed.

Lemma parse_number_reread (q : number) (rest : string) :
  finite_decimal q = true -> number_end rest ->
  parse_number (Number_toString q ++ rest) = Some (reread q, rest).
Proof.
  intros Hq Hrest. destruct (parse_number_toString q Hq) as (q' & Heq & Hparse).
  unfold reread. rewrite (Hparse rest Hrest).
  specialize (Hparse "" number_end_nil). rewrite append_nil_r in Hparse.
  by rewrite Hparse.
Qed.

Lemma finite_decimal_inject_Z (a : Z) : finite_decimal (inject_Z a) = true.
Proof. unfold finite_decimal. by rewrite Qred_inject_Z. Qed.

Lemma stamp_inj (a b : Z) : stamp a = stamp b -> a = b.
Proof.
  intros Hab. apply inject_Z_injective.
  destruct (parse_number_toString _ (finite_decimal_inject_Z a)) as (qa & Ha & Hpa).
  destruct (parse_number_toString _ (finite_decimal_inject_Z b)) as (qb & Hb & Hpb).
  specialize (Hpa "" number_end_nil). specialize (Hpb "" number_end_nil).
  rewrite append_nil_r in Hpa, Hpb. fold (stamp a) in Hpa. fold (stamp b) in Hpb.
  rewrite Hab, Hpb in Hpa. simplify_eq. by rewrite <- Ha, Hb.
Qed.

(** ** String literals *)

Lemma parse_string_body_quote_char (c : ascii) (t : string) :
  parse_string_body (quote_char c ++ t) = cons_char c (parse_string_body t).
Proof. destruct c as [[] [] [] [] [] [] [] []]; reflexivity. Qed.

Lemma parse_string_body_quote (s rest : string) :
  parse_string_body (quote_body s ++ String dquote rest) = Some (s, rest).
Proof.
  induction s as [|c s IH]; [done|].
  cbn [quote_body]. by rewrite append_assoc, parse_string_body_quote_char, IH.
Qed.

(** ** Values in a text *)

Lemma skip_ws_value_end (rest : string) : value_end rest -> skip_ws rest = rest.
Proof. by intros [r [->|[->| ->]]]. Qed.

Lemma number_end_value_end (rest : string) : value_end rest -> number_end rest.
Proof. by intros [r [->|[->| ->]]]. Qed.

Lemma parse_value_dquote (f : nat) (t : string) :
  parse_value (S f) (String dquote t)
  = match parse_string_body t with
    | Some (str, r') => Some (JString str, r')
    | None => None
    end.
Proof. reflexivity. Qed.

Lemma parse_value_lbrace (f : nat) (t : string) :
  parse_value (S f) (String "{" t)
  = match strip_char "}" (skip_ws t) with
    | Some r' => Some (JObject [], r')
    | None =>
        match parse_members f t with
        | Some (l, r') => Some (object_of l, r')
        | None => None
        end
    end.
Proof. reflexivity. Qed.

Lemma parse_value_lbracket (f : nat) (t : string) :
  parse_value (S f) (String "[" t)
  = match strip_char "]" (skip_ws t) with
    | Some r' => Some (JArray [], r')
    | None =>
        match parse_elements f t with
        | Some (l, r') => Some (JArray l, r')
        | None => None
        end
    end.
Proof. reflexivity. Qed.

Lemma parse_value_number_head (c : ascii) (t : string) (f : nat) :
  number_head c ->
  parse_value (S f) (String c t)
  = match parse_number (String c t) with
    | Some (q, r') => Some (JNumber q, r')
    | None => None
    end.
Proof.
  intros [->|(d & Hd & ->)]; [reflexivity|].
  assert (d = 0 \/ d = 1 \/ d = 2 \/ d = 3 \/ d = 4 \/ d = 5 \/ d = 6 \/ d = 7
          \/ d = 8 \/ d = 9) as Hc by lia.
  repeat (destruct Hc as [->|Hc]; [reflexivity|]). by subst.
Qed.

Lemma Number_toString_head (q : number) :
  exists c t, Number_toString q = String c t /\ number_head c.
Proof.
  unfold Number_toString. cbv zeta.
  destruct (Qred q) as [n d]. cbn [Qnum Qden].
  set (k := match decimal_places d with Some k => k | None => 17%nat end).
  set (sc := Z.abs n * 10 ^ Z.of_nat k / Z.pos d).
  destruct (Z.ltb_spec n 0) as [Hneg|Hpos].
  - eexists _, _. split; [by rewrite append_String|]. by left.
  - assert (0 < 10 ^ Z.of_nat k) as Hp by (apply Z.pow_pos_nonneg; lia).
    assert (0 <= sc / 10 ^ Z.of_nat k) as Hi.
    { apply Z.div_pos; [|lia]. apply Z.div_pos; lia. }
    destruct (digits_frac _ Hi) as (ki & Hki & Hub & Hlb).
    rewrite append_nil, Hki. cbn [frac_digits]. rewrite append_String.
    eexists _, _. split; [done|]. right. eexists. split; [|done].
    assert (0 < 10 ^ Z.of_nat ki) by (apply Z.pow_pos_nonneg; lia).
    split; [apply Z.div_pos; lia|].
    assert (sc / 10 ^ Z.of_nat k / 10 ^ Z.of_nat ki < 10); [|lia].
    apply Z.div_lt_upper_bound; [lia|].
    rewrite Nat2Z.inj_succ, Z.pow_succ_r in Hub; lia.
Qed.

Lemma parse_value_atom (v : JSValue) (f : nat) (rest : string) :
  atom v -> value_end rest ->
  parse_value (S f) (JSON_stringify v ++ rest) = Some (reread_value v, rest).
Proof.
  intros Hv Hrest. destruct v as [|b|q|s|l|l]; try done.
  - cbn [JSON_stringify reread_value].
    destruct (Number_toString_head q) as (c & t & Ht & Hc).
    pose proof (parse_number_reread q rest Hv (number_end_value_end _ Hrest)) as Hp.
    rewrite Ht, append_String in Hp |- *.
    by rewrite parse_value_number_head, Hp.
  - cbn [JSON_stringify reread_value]. unfold QuoteJSONString.
    rewrite append_String, append_assoc, append_String, append_nil.
    by rewrite parse_value_dquote, parse_string_body_quote.
Qed.

(** ** Objects and arrays of notes *)

Lemma join_cons2 (sep a b : string) (l : list string) :
  join sep (a :: b :: l) = a ++ sep ++ join sep (b :: l).
Proof. reflexivity. Qed.

Lemma member_text_head (kv : string * JSValue) (rest : string) :
  member_text kv ++ rest
  = String dquote (quote_body (fst kv) ++ String dquote (String ":" (JSON_stringify (snd kv) ++ rest))).
Proof.
  unfold member_text, QuoteJSONString.
  by rewrite !append_String, !append_assoc, !append_String, !append_nil.
Qed.

Lemma parse_members_step (f : nat) (kv : string * JSValue) (rest : string) :
  atom (snd kv) -> value_end rest ->
  parse_members (S (S f)) (member_text kv ++ rest)
  = match strip_char "," rest, strip_char "}" rest with
    | Some r4, _ =>
        match parse_members (S f) r4 with
        | Some (l, r5) => Some ((fst kv, reread_value (snd kv)) :: l, r5)
        | None => None
        end
    | None, Some r4 => Some ([(fst kv, reread_value (snd kv))], r4)
    | None, None => None
    end.
Proof.
  intros Hv Hrest. rewrite member_text_head.
  change (parse_members (S (S f)) (String dquote ?t))
    with (match parse_string_body t with
          | None => None
          | Some (k, r1) =>
              match strip_char ":" (skip_ws r1) with
              | None => None
              | Some r2 =>
                  match parse_value (S f) r2 with
                  | None => None
                  | Some (v, r3) =>
                      match strip_char "," (skip_ws r3), strip_char "}" (skip_ws r3) with
                      | Some r4, _ =>
                          match parse_members (S f) r4 with
                          | Some (l, r5) => Some ((k, v) :: l, r5)
                          | None => None
                          end
                      | None, Some r4 => Some ([(k, v)], r4)
                      | None, None => None
                      end
                  end
              end
          end).
  rewrite parse_string_body_quote.
  change (strip_char ":" (skip_ws (String ":" ?t))) with (Some t). cbv beta iota.
  rewrite parse_value_atom by done.
  by rewrite skip_ws_value_end.
Qed.

Lemma parse_members_atoms (members : list (string * JSValue)) :
  forall fuel rest,
  members <> [] -> Forall (fun kv => atom (snd kv)) members ->
  (length members < fuel)%nat ->
  parse_members fuel (join "," (map member_text members) ++ String "}" rest)
  = Some (map (fun kv => (fst kv, reread_value (snd kv))) members, rest).
Proof.
  induction members as [|kv members IH]; intros fuel rest Hne Hall Hfuel; [done|].
  apply Forall_cons in Hall as [Hkv Hall].
  destruct fuel as [|[|f]]; [cbn in Hfuel; lia..|].
  destruct members as [|kv' members].
  - cbn [map join]. rewrite parse_members_step; [done|done|by eexists; eauto].
  - rewrite map_cons, (map_cons _ kv'), join_cons2, <- (map_cons _ kv').
    rewrite !append_assoc, (append_String ","), append_nil.
    rewrite parse_members_step; [|done|by eexists; eauto].
    cbn [strip_char Ascii.eqb Bool.eqb].
    rewrite IH; [done|done|done|cbn in *; lia].
Qed.

Lemma note_text (note : Note) (rest : string) :
  JSON_stringify (Note_to_js note) ++ rest
  = String "{" (join "," (map member_text (note_members note)) ++ String "}" rest).
Proof.
  change (JSON_stringify (Note_to_js note))
    with ("{" ++ join "," (map member_text (note_members note)) ++ "}").
  by rewrite !append_String, !append_assoc, !append_String, !append_nil.
Qed.

Lemma join_members_head (kv : string * JSValue) (l : list (string * JSValue))
    (rest : string) :
  exists t, join "," (map member_text (kv :: l)) ++ rest = String dquote t.
Proof.
  destruct l as [|kv' l].
  - cbn [map join]. rewrite member_text_head. by eexists.
  - rewrite map_cons, (map_cons _ kv'), join_cons2, append_assoc, member_text_head.
    by eexists.
Qed.

Lemma atoms_note_members (note : Note) :
  finite_note note = true -> Forall (fun kv => atom (snd kv)) (note_members note).
Proof.
  unfold finite_note. rewrite !andb_true_iff. intros ((((Hx & Hy) & Hw) & Hh) & Hz).
  repeat constructor; done.
Qed.

Lemma parse_value_note (note : Note) (f : nat) (rest : string) :
  finite_note note = true -> value_end rest -> (8 < f)%nat ->
  parse_value (S f) (JSON_stringify (Note_to_js note) ++ rest)
  = Some (Note_to_js (reread_note note), rest).
Proof.
  intros Hn Hrest Hf. rewrite note_text, parse_value_lbrace.
  destruct (join_members_head ("id", JString (id note)) (tail (note_members note))
              (String "}" rest)) as [t Ht].
  change (("id", JString (id note)) :: tail (note_members note))
    with (note_members note) in Ht.
  replace (strip_char "}" (skip_ws (join "," (map member_text (note_members note))
                                     ++ String "}" rest)))
    with (@None string) by by rewrite Ht.
  rewrite parse_members_atoms;
    [reflexivity|done|by apply atoms_note_members|cbn; lia].
Qed.

Lemma parse_elements_step (f : nat) (note : Note) (rest : string) :
  finite_note note = true -> value_end rest -> (8 < f)%nat ->
  parse_elements (S (S f)) (note_json note ++ rest)
  = match strip_char "," rest, strip_char "]" rest with
    | Some r1, _ =>
        match parse_elements (S f) r1 with
        | Some (l, r2) => Some (Note_to_js (reread_note note) :: l, r2)
        | None => None
        end
    | None, Some r1 => Some ([Note_to_js (reread_note note)], r1)
    | None, None => None
    end.
Proof.
  intros Hn Hrest Hf. unfold note_json. cbn [parse_elements].
  rewrite parse_value_note by done. by rewrite skip_ws_value_end.
Qed.

Lemma parse_elements_notes (ns : list Note) :
  forall fuel rest,
  ns <> [] -> Forall (fun note => finite_note note = true) ns ->
  (length ns + 9 < fuel)%nat ->
  parse_elements fuel (join "," (map note_json ns) ++ String "]" rest)
  = Some (map (fun note => Note_to_js (reread_note note)) ns, rest).
Proof.
  induction ns as [|n ns IH]; intros fuel rest Hne Hall Hfuel; [done|].
  apply Forall_cons in Hall as [Hn Hall].
  destruct fuel as [|[|f]]; [cbn in Hfuel; lia..|].
  destruct ns as [|n' ns].
  - cbn [map join].
    rewrite parse_elements_step; [done|done|by eexists; eauto|cbn in *; lia].
  - rewrite map_cons, (map_cons _ n'), join_cons2, <- (map_cons _ n').
    rewrite !append_assoc, (append_String ","), append_nil.
    rewrite parse_elements_step; [|done|by eexists; eauto|cbn in *; lia].
    cbn [strip_char Ascii.eqb Bool.eqb].
    rewrite IH; [done|done|done|cbn in *; lia].
Qed.

Lemma length_append (a b : string) :
  String.length (a ++ b) = (String.length a + String.length b)%nat.
Proof. induction a as [|c a IH]; [done|]. rewrite append_String. cbn. by rewrite IH. Qed.

Lemma note_json_head (note : Note) :
  exists t, note_json note
            = String "{" (String dquote (String "i" (String "d" (String dquote t)))).
Proof.
  unfold note_json. rewrite <- (append_nil_r (JSON_stringify _)), note_text.
  unfold note_members. cbn [map]. rewrite join_cons2, append_assoc, member_text_head.
  cbn [fst]. change (quote_body "id") with "id". rewrite !append_String, append_nil.
  by eexists.
Qed.

Lemma length_join_notes (ns : list Note) :
  (5 * length ns <= String.length (join "," (map note_json ns)))%nat.
Proof.
  induction ns as [|n ns IH]; [done|].
  destruct (note_json_head n) as [t Ht].
  destruct ns as [|n' ns].
  - cbn [map join]. rewrite Ht. cbn. lia.
  - rewrite map_cons, (map_cons _ n'), join_cons2, <- (map_cons _ n').
    rewrite !length_append, Ht. cbn [String.length length] in *. lia.
Qed.

Lemma Note_of_js_to_js (note : Note) : Note_of_js (Note_to_js note) = Some note.
Proof. by destruct note. Qed.

Lemma notes_of_js_to_js (ns : list Note) : notes_of_js (notes_to_js ns) = Some ns.
Proof.
  unfold notes_of_js, notes_to_js. induction ns as [|n ns IH]; [done|].
  cbn [map mapM]. rewrite Note_of_js_to_js. cbn. by rewrite IH.
Qed.

Lemma notes_json (ns : list Note) :
  JSON_stringify (notes_to_js ns) = String "[" (join "," (map note_json ns) ++ "]").
Proof.
  unfold notes_to_js.
  change (JSON_stringify (JArray ?l)) with ("[" ++ join "," (map JSON_stringify l) ++ "]").
  rewrite append_String, append_nil. do 3 f_equal.
  by rewrite map_map.
Qed.

Lemma JSON_parse_notes (ns : list Note) :
  Forall (fun note => finite_note note = true) ns ->
  JSON_parse (JSON_stringify (notes_to_js ns)) = Ok (notes_to_js (map reread_note ns)).
Proof.
  intros Hall. destruct (decide (ns = [])) as [->|Hne]; [reflexivity|].
  unfold JSON_parse. rewrite notes_json.
  set (fuel := (2 * String.length _ + 2)%nat).
  assert (exists f, fuel = S f /\ (length ns + 9 < f)%nat) as (f & -> & Hf).
  { exists (Nat.pred fuel). unfold fuel. cbn [String.length].
    rewrite length_append. pose proof (length_join_notes ns).
    destruct ns; [done|]. cbn [length] in *. lia. }
  rewrite parse_value_lbracket.
  destruct ns as [|n ns]; [done|].
  destruct (note_json_head n) as [t Ht].
  replace (strip_char "]" (skip_ws (join "," (map note_json (n :: ns)) ++ "]")))
    with (@None string).
  2:{ destruct ns as [|n' ns].
      - cbn [map join]. by rewrite Ht.
      - rewrite map_cons, (map_cons _ n'), join_cons2, Ht. done. }
  rewrite parse_elements_notes by done.
  unfold notes_to_js. by rewrite map_map.
Qed.


(** ** Records and membership *)

Lemma Board_eta (b : Board) :
  {| notes := notes b; maxZIndex := maxZIndex b; dragState := dragState b |} = b.
Proof. by destruct b. Qed.

Lemma fmap_if_absent (f : Note -> Note) (i : string) (l : list Note) :
  i ∉ id <$> l ->
  (fun note => if decide (id note = i) then f note else note) <$> l = l.
Proof.
  induction l as [|n l IH]; intros Hi; [done|].
  rewrite fmap_cons in Hi. apply not_elem_of_cons in Hi as [Hn Hl].
  cbn. rewrite decide_False by congruence. f_equal. by apply IH.
Qed.

Lemma filter_if_absent (i : string) (l : list Note) :
  i ∉ id <$> l -> filter (fun note => id note <> i) l = l.
Proof.
  induction l as [|n l IH]; intros Hi; [done|].
  rewrite fmap_cons in Hi. apply not_elem_of_cons in Hi as [Hn Hl].
  rewrite filter_cons_True by congruence. f_equal. by apply IH.
Qed.

(** A handler that maps over the notes and keeps every id keeps the list
    of ids. *)
Lemma ids_fmap_if (f : Note -> Note) (i : string) (l : list Note) :
  (forall note, id (f note) = id note) ->
  id <$> ((fun note => if decide (id note = i) then f note else note) <$> l) = id <$> l.
Proof.
  intros Hf. rewrite <- list_fmap_compose. apply list_fmap_ext.
  intros k n _. cbn. by case_decide.
Qed.

(** ** The counter bounds the z-indexes *)

Lemma z_bounded_freshBoard_nil : z_bounded (freshBoard []).
Proof. intros n Hn. by apply elem_of_nil in Hn. Qed.

Lemma z_bounded_addNote now r1 r2 r3 b :
  z_bounded b -> z_bounded (addNote now r1 r2 r3 b).
Proof.
  intros Hb n Hn. cbn in *. apply elem_of_app in Hn as [Hn|Hn].
  - specialize (Hb n Hn). lra.
  - apply list_elem_of_singleton in Hn as ->. cbn. lra.
Qed.

Lemma z_bounded_deleteNote i b : z_bounded b -> z_bounded (deleteNote i b).
Proof.
  intros Hb n Hn. cbn in *. apply list_elem_of_filter in Hn as [_ Hn]. by apply Hb.
Qed.

Lemma z_bounded_fmap_if (f : Note -> Note) i b m d :
  z_bounded b -> (maxZIndex b <= m)%Q ->
  (forall note, note ∈ notes b -> zIndex (f note) <= m)%Q ->
  z_bounded {| notes := (fun note => if decide (id note = i) then f note else note)
                          <$> notes b;
               maxZIndex := m; dragState := d |}.
Proof.
  intros Hb Hm Hf n Hn. cbn in *.
  apply list_elem_of_fmap in Hn as (n0 & -> & Hn0).
  case_decide; [by apply Hf|]. specialize (Hb n0 Hn0). lra.
Qed.

Lemma z_bounded_bringToFront i b : z_bounded b -> z_bounded (bringToFront i b).
Proof.
  intros Hb. apply z_bounded_fmap_if; [done|lra|]. intros n _. cbn. lra.
Qed.

Lemma z_bounded_handle b ev : z_bounded b -> z_bounded (handle b ev).
Proof.
  intros Hb. destruct ev as [now r1 r2 r3|i|i c|i c|i|e rect c i|e c| |]; cbn.
  - by apply z_bounded_addNote.
  - by apply z_bounded_deleteNote.
  - apply z_bounded_fmap_if; [done|lra|]. intros n Hn. cbn. by apply Hb.
  - apply z_bounded_fmap_if; [done|lra|]. intros n Hn. cbn. by apply Hb.
  - by apply z_bounded_bringToFront.
  - unfold handleMouseDown. destruct c; [|done].
    by apply z_bounded_bringToFront.
  - unfold handleMouseMove. destruct (isDragging (dragState b)); [|done]. cbn.
    destruct (truthy_id (noteId (dragState b))); [|done]. destruct c; [|done].
    apply z_bounded_fmap_if; [done|lra|]. intros n Hn. cbn. by apply Hb.
  - done.
  - intros n Hn. by apply elem_of_nil in Hn.
Qed.

Lemma z_bounded_run evs : forall b, z_bounded b -> z_bounded (run b evs).
Proof.
  induction evs as [|ev evs IH]; intros b Hb; [done|].
  cbn. apply IH. by apply z_bounded_handle.
Qed.

(** ** Creating a note *)

Lemma Qfloor_unit_interval (r : number) (k : Z) :
  0 < k -> unit_interval r -> 0 <= Qfloor (r * inject_Z k) < k.
Proof.
  intros Hk [H0 H1].
  assert (0 < inject_Z k)%Q as Hk' by (unfold Qlt; simpl; lia).
  split.
  - change 0 with (Qfloor 0). apply Qfloor_resp_le.
    apply Qmult_le_0_compat; [done|]. by apply Qlt_le_weak.
  - rewrite Zlt_Qlt. eapply Qle_lt_trans; [apply Qfloor_le|].
    apply Qlt_le_trans with (1 * inject_Z k)%Q;
      [by apply Qmult_lt_compat_r | rewrite Qmult_1_l; apply Qle_refl].
Qed.

Lemma pick_color_in_palette (r : number) : unit_interval r -> pick_color r ∈ COLORS.
Proof.
  intros Hr. unfold pick_color, Array_get, Math_floor.
  rewrite Qfloor_Z. rewrite Qeq_bool_refl.
  pose proof (Qfloor_unit_interval r 8 eq_refl Hr) as Hf.
  change (inject_Z (Z.of_nat (length COLORS))) with (inject_Z 8).
  destruct (Z.leb_spec 0 (Qfloor (r * inject_Z 8))) as [_|?]; [|lia].
  cbn [andb].
  assert (exists n, Z.to_nat (Qfloor (r * inject_Z 8)) = n /\ (n < 8)%nat) as (n & -> & Hn)
    by (eexists; split; [done|lia]).
  clear Hf. do 8 (destruct n as [|n]; [cbn; apply list_elem_of_In; cbn; tauto|]). lia.
Qed.

(** ** Creating a note after a reload *)

(** Creating a note on a board whose counter bounds its z-indexes: one
    note is appended, with the time stamp as id, a position in
    [0,300) x [0,200), the default size, a palette color and a z-index
    one above the counter, which lies strictly above every note already
    there; the counter is incremented. *)
Lemma addNote_spec (now : Z) (r1 r2 r3 : number) (b : Board) :
  unit_interval r1 -> unit_interval r2 -> unit_interval r3 ->
  exists note,
    notes (addNote now r1 r2 r3 b) = (notes b ++ [note])%list
    /\ id note = stamp now
    /\ (0 <= x note)%Q /\ (x note < 300)%Q
    /\ (0 <= y note)%Q /\ (y note < 200)%Q
    /\ width note = 200%Q /\ height note = 200%Q
    /\ color note ∈ COLORS
    /\ zIndex note = (maxZIndex b + 1)%Q
    /\ maxZIndex (addNote now r1 r2 r3 b) = (maxZIndex b + 1)%Q
    /\ (z_bounded b -> forall other, other ∈ notes b -> (zIndex other < zIndex note)%Q).
Proof.
  intros [H1 H1'] [H2 H2'] H3. eexists. split; [reflexivity|]. cbn.
  repeat split; try lra; [by apply pick_color_in_palette|].
  intros Hb other Hother. specialize (Hb other Hother). lra.
Qed.

(** The board of the session that follows [first_session]: the stored
    note, and the counter back at 100. *)
Lemma reload_first_session :
  reload first_session
  = Some (freshBoard
            [ {| id := "1762075200000"; content := "New note...";
                 x := 150; y := 50; width := 200; height := 200;
                 color := "#FFE066"; zIndex := 101 |} ]).
Proof. vm_compute. reflexivity. Qed.

(** C1, at the failing input. A session creates one note (z-index 101)
    and saves it; the next session hydrates that snapshot, and [addNote]
    gives the new note the z-index 101 again: it is not strictly greater
    than the z-index of the note already in the collection. *)
Theorem C1_addNote_after_reload :
  exists b old,
    reload first_session = Some b /\ notes b = [old]
    /\ forall now r1 r2 r3, exists new,
         notes (addNote now r1 r2 r3 b) = [old; new]
         /\ zIndex old = 101%Q /\ zIndex new = 101%Q
         /\ ~ (zIndex old < zIndex new)%Q.
Proof.
  eexists _, _. split; [apply reload_first_session|]. split; [reflexivity|].
  intros now r1 r2 r3. eexists. split; [reflexivity|]. cbn.
  repeat split. intros H. by apply Qlt_irrefl in H.
Qed.

(** C2, at the failing input. Immediately after hydration from the
    snapshot of a session that created one note, the counter is 100 and
    the note has z-index 101: the counter does not bound the z-indexes. *)
Theorem C2_counter_below_note_after_reload :
  exists b note,
    reload first_session = Some b /\ note ∈ notes b
    /\ maxZIndex b = 100%Q /\ zIndex note = 101%Q /\ ~ z_bounded b.
Proof.
  eexists _, _. split; [apply reload_first_session|]. cbn.
  split; [apply list_elem_of_here|]. repeat split.
  intros Hb. specialize (Hb _ (list_elem_of_here _ _)). cbn in Hb.
  by apply Qle_not_lt in Hb.
Qed.

(** ** Absent ids *)

(** C8. For an id that no note of the collection has, [deleteNote],
    [updateNoteContent] and [updateNoteColor] return the board they were
    given: the collection, the counter and the drag state are unchanged.
    The handlers are total functions, so no error arises. *)
Theorem C8_absent_id_noop (b : Board) (i text col : string) :
  i ∉ ids b ->
  deleteNote i b = b /\ updateNoteContent i text b = b /\ updateNoteColor i col b = b.
Proof.
  intros Hi. unfold deleteNote, updateNoteContent, updateNoteColor.
  rewrite filter_if_absent, !fmap_if_absent by done. by rewrite Board_eta.
Qed.

(** C8 on a board with the note "1" and the absent id "2". *)
Lemma C8_absent_id_noop_witness :
  let b := run (freshBoard []) [AddNote 1 0 0 0] in
  deleteNote "2" b = b /\ updateNoteContent "2" "text" b = b
  /\ updateNoteColor "2" "#FF6B6B" b = b.
Proof.
  apply (C8_absent_id_noop (run (freshBoard []) [AddNote 1 0 0 0]) "2" "text" "#FF6B6B").
  vm_compute. intros H. by repeat (apply elem_of_cons in H as [H|H]; [done|]); apply elem_of_nil in H.
Defined.

(** ** A failed write *)

(** When [setItem] throws for the text of the new collection, so does the
    dispatch of an event that sets the notes: nothing catches it. *)
Lemma dispatch_setItem_throws (onNotesChange : bool) (w : World) (b : Board)
    (ev : Event) (e : Exception) :
  sets_notes b ev = true ->
  setItem (localStorage w) "sticky-notes"
          (JSON_stringify (notes_to_js (notes (handle b ev)))) = Throw e ->
  dispatch onNotesChange (w, b) ev = Throw e.
Proof.
  intros Hs He. unfold dispatch, saveEffect. cbn [fst snd]. by rewrite Hs, He.
Qed.

(** C9, at the failing input. The storage has room for the snapshot of
    the empty collection, which the effect writes after the first render,
    but not for a note. The click on "Add Note" then ends in the
    [QuotaExceededError] that [setItem] throws in the effect: the failure
    is propagated, not swallowed, and the callback is not notified of the
    new collection. *)
Theorem C9_write_failure_propagates :
  exists w,
    saveEffect true [] (empty_world 20) = Ok w
    /\ notified w = [[]]
    /\ length (notes (handle (freshBoard []) (AddNote 1762075200000 (1 # 2) (1 # 4) 0)))
       = 1%nat
    /\ dispatch true (w, freshBoard []) (AddNote 1762075200000 (1 # 2) (1 # 4) 0)
       = Throw QuotaExceededError.
Proof.
  eexists. split; [vm_compute; reflexivity|]. split; [reflexivity|].
  split; [reflexivity|]. by apply dispatch_setItem_throws.
Qed.

(** ** Hydration *)

(** C10. The initializer of [notes] returns the parsed value of every
    non-empty stored string that parses, whatever the caller's initial
    notes are and whether or not the value is an array of notes ("null"
    gives null, "{}" an object, "[1,2]" an array that holds no note); it
    returns the initial notes when nothing or the empty string is stored
    or when parsing throws (as for "{"). *)
Theorem C10_hydration_unvalidated (ls : Storage) (initialNotes : JSValue) :
  (forall saved v,
      getItem ls "sticky-notes" = Some saved -> saved <> "" ->
      JSON_parse saved = Ok v -> initNotes ls initialNotes = v)
  /\ (getItem ls "sticky-notes" = None \/ getItem ls "sticky-notes" = Some ""
      \/ (exists saved e, getItem ls "sticky-notes" = Some saved
                          /\ JSON_parse saved = Throw e) ->
      initNotes ls initialNotes = initialNotes)
  /\ initNotes (stored "null") initialNotes = JNull
  /\ initNotes (stored "{}") initialNotes = JObject []
  /\ initNotes (stored "[1,2]") initialNotes = JArray [JNumber 1; JNumber 2]
  /\ notes_of_js (JArray [JNumber 1; JNumber 2]) = None
  /\ initNotes (stored "{") initialNotes = initialNotes.
Proof.
  unfold initNotes. repeat split; try reflexivity.
  - intros saved v -> Hne ->. by destruct saved.
  - intros [->|[->|(saved & e & -> & ->)]]; [done..|]. by destruct saved.
Qed.

(** C10 on the stored string "null". *)
Lemma C10_hydration_unvalidated_witness :
  initNotes (stored "null") (notes_to_js []) = JNull.
Proof.
  apply (proj1 (C10_hydration_unvalidated (stored "null") (notes_to_js [])) "null" JNull);
    [reflexivity|discriminate|reflexivity].
Defined.

(** ** Bringing a note to the front *)

Lemma ids_bringToFront (i : string) (b : Board) : ids (bringToFront i b) = ids b.
Proof. unfold ids, bringToFront. cbn. by apply ids_fmap_if. Qed.

(** [bringToFront] on a board with distinct ids whose counter bounds its
    z-indexes. *)
Lemma bringToFront_spec (i : string) (b : Board) :
  NoDup (ids b) -> z_bounded b ->
  (forall note, note ∈ notes (bringToFront i b) -> id note = i ->
                zIndex note = (maxZIndex b + 1)%Q)
  /\ strict_top i (bringToFront i b)
  /\ (forall k other, notes b !! k = Some other -> id other <> i ->
                      notes (bringToFront i b) !! k = Some other)
  /\ maxZIndex (bringToFront i b) = (maxZIndex b + 1)%Q.
Proof.
  intros Hnd Hb. unfold bringToFront, strict_top. cbn.
  set (g := fun note : Note =>
              if decide (id note = i) then with_zIndex (maxZIndex b + 1) note else note).
  assert (forall note, id (g note) = id note) as Hg
    by (intros note; unfold g; by case_decide).
  split; [|split; [|split; [|done]]].
  - intros note Hn Hi. apply list_elem_of_fmap in Hn as (n0 & -> & Hn0).
    rewrite Hg in Hi. unfold g. by rewrite decide_True.
  - intros k k' note other Hk Hk' Hi Hne.
    rewrite list_lookup_fmap in Hk, Hk'.
    destruct (notes b !! k) as [n0|] eqn:Hn0; [|done].
    destruct (notes b !! k') as [m0|] eqn:Hm0; [|done].
    cbn in Hk, Hk'. injection Hk as <-. injection Hk' as <-.
    rewrite Hg in Hi. unfold g. rewrite (decide_True _ _ Hi). cbn.
    case_decide as Hm.
    + exfalso. apply Hne. apply (NoDup_lookup (ids b) k k' i); [done|..].
      * unfold ids. by rewrite list_lookup_fmap, Hn0, <- Hi.
      * unfold ids. by rewrite list_lookup_fmap, Hm0, <- Hm.
    + assert (zIndex m0 <= maxZIndex b)%Q
        by (apply Hb; by eapply list_elem_of_lookup_2).
      lra.
  - intros k other Hk Hi. rewrite list_lookup_fmap, Hk. cbn.
    unfold g. by rewrite decide_False.
Qed.

(** C4 fails as stated, for two reasons. Two notes created in the same
    millisecond share their id, and [bringToFront] gives both the same
    z-index: neither is strictly the maximum. And after a reload of two
    notes (z-indexes 101 and 102) the counter is 100, so [bringToFront] on
    the first gives it 101, below the second. *)
Lemma C4_counterexample :
  ("1762075200000" ∈ ids twin_board
   /\ ~ strict_top "1762075200000" (bringToFront "1762075200000" twin_board))
  /\ (exists b, reload two_note_session = Some b
                /\ "1762075200000" ∈ ids b
                /\ ~ strict_top "1762075200000" (bringToFront "1762075200000" b)).
Proof.
  split.
  - split; [elem_by_compute|].
    intros H. specialize (H 0%nat 1%nat _ _ eq_refl eq_refl eq_refl).
    cbn in H. eapply Qlt_irrefl, H. lia.
  - eexists. split; [vm_compute; reflexivity|].
    split; [elem_by_compute|].
    intros H. specialize (H 0%nat 1%nat _ _ eq_refl eq_refl eq_refl).
    cbn in H. assert (102 < 101)%Q as Hlt by (apply H; lia).
    unfold Qlt in Hlt. cbn in Hlt. lia.
Qed.

(** C4, amended. On a board whose ids are pairwise distinct and whose
    counter bounds its z-indexes, [bringToFront i] for an id [i] of the
    collection sets the z-index of that note to the counter plus one,
    strictly above every other note, leaves the other notes as they were
    and advances the counter; bringing [i] to the front once more keeps it
    strictly on top. *)
Theorem C4_bringToFront_front (i : string) (b : Board) :
  NoDup (ids b) -> z_bounded b -> i ∈ ids b ->
  (exists note, note ∈ notes (bringToFront i b) /\ id note = i)
  /\ (forall note, note ∈ notes (bringToFront i b) -> id note = i ->
                   zIndex note = (maxZIndex b + 1)%Q)
  /\ strict_top i (bringToFront i b)
  /\ (forall k other, notes b !! k = Some other -> id other <> i ->
                      notes (bringToFront i b) !! k = Some other)
  /\ maxZIndex (bringToFront i b) = (maxZIndex b + 1)%Q
  /\ strict_top i (bringToFront i (bringToFront i b)).
Proof.
  intros Hnd Hb Hi.
  destruct (bringToFront_spec i b Hnd Hb) as (Hz & Htop & Hothers & Hmax).
  split; [|repeat split; try done].
  - rewrite <- (ids_bringToFront i b) in Hi.
    apply list_elem_of_fmap in Hi as (note & -> & Hn). eauto.
  - apply bringToFront_spec.
    + by rewrite ids_bringToFront.
    + by apply z_bounded_bringToFront.
Qed.

(** C4 on the scenario of the specification: notes "1" (101) and "2"
    (102), then bring "1" to the front. *)
Lemma C4_bringToFront_front_witness :
  let b := run (freshBoard []) [AddNote 1 0 0 0; AddNote 2 0 0 0] in
  zIndex <$> notes (bringToFront "1" b) = [103; 102]%Q
  /\ strict_top "1" (bringToFront "1" b)
  /\ strict_top "1" (bringToFront "1" (bringToFront "1" b)).
Proof.
  cbv zeta. split; [reflexivity|].
  pose proof (C4_bringToFront_front "1"
                (run (freshBoard []) [AddNote 1 0 0 0; AddNote 2 0 0 0])) as H.
  destruct H as (_ & _ & Htop & _ & _ & Htop2); [| | |by split].
  - vm_compute. apply NoDup_cons. split; [|apply NoDup_singleton].
    intros H. apply list_elem_of_singleton in H. discriminate.
  - apply z_bounded_run, z_bounded_freshBoard_nil.
  - elem_by_compute.
Defined.

(** ** Dragging *)

Lemma Math_max_0_nonneg (v : number) : (0 <= Math_max 0 v)%Q.
Proof.
  unfold Math_max. destruct (Qle_bool 0 v) eqn:Hv; [by apply Qle_bool_iff|apply Qle_refl].
Qed.

Lemma handleMouseMove_dragging (e : MouseEvent) (c : DOMRect) (i : string) (b : Board) :
  dragging b i ->
  handleMouseMove e (Some c) b
  = {| notes := dragged_to e c i b; maxZIndex := maxZIndex b; dragState := dragState b |}.
Proof. intros [H1 H2]. unfold handleMouseMove. by rewrite H1, H2. Qed.

Lemma dragged_to_again (e0 e : MouseEvent) (c0 c : DOMRect) (i : string) (b : Board) :
  dragged_to e c i
    {| notes := dragged_to e0 c0 i b; maxZIndex := maxZIndex b; dragState := dragState b |}
  = dragged_to e c i b.
Proof.
  unfold dragged_to. cbn. rewrite <- list_fmap_compose. apply list_fmap_ext.
  intros k note _. cbn. by repeat case_decide.
Qed.

Lemma run_moves (path : list (MouseEvent * DOMRect)) :
  forall (b : Board) (i : string) (e : MouseEvent) (c : DOMRect),
  dragging b i ->
  run b (move_events (path ++ [(e, c)]))
  = {| notes := dragged_to e c i b; maxZIndex := maxZIndex b; dragState := dragState b |}.
Proof.
  induction path as [|[e0 c0] path IH]; intros b i e c Hd.
  - cbn. by apply handleMouseMove_dragging.
  - cbn [app move_events map run foldl handle fst snd].
    rewrite (handleMouseMove_dragging e0 c0 i b Hd).
    fold (move_events (path ++ [(e, c)])).
    change (foldl handle ?b0 ?evs) with (run b0 evs).
    rewrite (IH _ i e c) by done. by rewrite dragged_to_again.
Qed.


Lemma Math_max_0_cases (v : number) :
  ((0 <= v)%Q -> Math_max 0 v = v) /\ ((v < 0)%Q -> Math_max 0 v = 0%Q).
Proof.
  unfold Math_max. destruct (Qle_bool 0 v) eqn:Hv.
  - apply Qle_bool_iff in Hv. split; [done|]. intros H. by apply Qlt_not_le in H.
  - split; [|done]. intros H. apply Qle_bool_iff in H. congruence.
Qed.



(** ** Identifiers *)

Lemma ids_handle_sublist (b : Board) (ev : Event) :
  match ev with
  | AddNote now _ _ _ => ids (handle b ev) = (ids b ++ [stamp now])%list
  | _ => ids (handle b ev) `sublist_of` ids b
  end.
Proof.
  destruct ev as [now r1 r2 r3|i|i c|i c|i|e rect c i|e c| |]; unfold ids; cbn.
  - by rewrite fmap_app.
  - apply fmap_sublist, sublist_filter.
  - by rewrite ids_fmap_if.
  - by rewrite ids_fmap_if.
  - by rewrite ids_fmap_if.
  - unfold handleMouseDown. destruct c; [|done]. cbn. by rewrite ids_fmap_if.
  - unfold handleMouseMove. destruct (isDragging (dragState b)); [|done]. cbn.
    destruct (truthy_id (noteId (dragState b))); [|done]. destruct c; [|done].
    cbn. by rewrite ids_fmap_if.
  - done.
  - apply sublist_nil_l.
Qed.

Lemma NoDup_ids_run (evs : list Event) : forall b,
  NoDup (ids b ++ created_ids evs) -> NoDup (ids (run b evs)).
Proof.
  induction evs as [|ev evs IH]; intros b Hnd.
  - cbn in *. by rewrite app_nil_r in Hnd.
  - cbn [run foldl]. change (foldl handle ?b0 ?l) with (run b0 l). apply IH.
    pose proof (ids_handle_sublist b ev) as Hev. unfold created_ids in *.
    destruct ev as [now r1 r2 r3| | | | | | | |]; cbn [creation_times] in Hnd;
      try (eapply sublist_NoDup; [exact Hnd|]; apply sublist_app; [exact Hev|reflexivity]).
    rewrite fmap_cons in Hnd. rewrite Hev, <- app_assoc. exact Hnd.
Qed.

(** C6 fails as stated: two notes created at the same clock reading have
    the same id. *)
Lemma C6_counterexample :
  ~ NoDup (ids (run (freshBoard [])
                  [AddNote 1762075200000 0 0 0; AddNote 1762075200000 0 0 0])).
Proof.
  intros H. apply NoDup_cons in H as [H _]. apply H. apply list_elem_of_here.
Qed.

(** C6, amended. After every sequence of operations on the empty board
    whose creations happen at pairwise distinct clock readings, the ids of
    the collection are pairwise distinct; creating three notes at distinct
    clock readings yields three notes with distinct ids and the z-indexes
    101, 102 and 103. *)
Theorem C6_ids_unique (evs : list Event) (t1 t2 t3 : Z)
    (a1 a2 a3 b1 b2 b3 c1 c2 c3 : number) :
  NoDup (creation_times evs) -> NoDup [t1; t2; t3] ->
  NoDup (ids (run (freshBoard []) evs))
  /\ length (notes (run (freshBoard [])
                      [AddNote t1 a1 a2 a3; AddNote t2 b1 b2 b3; AddNote t3 c1 c2 c3]))
     = 3%nat
  /\ NoDup (ids (run (freshBoard [])
                   [AddNote t1 a1 a2 a3; AddNote t2 b1 b2 b3; AddNote t3 c1 c2 c3]))
  /\ zIndex <$> notes (run (freshBoard [])
                         [AddNote t1 a1 a2 a3; AddNote t2 b1 b2 b3; AddNote t3 c1 c2 c3])
     = [101; 102; 103]%Q.
Proof.
  intros Hevs Ht.
  assert (forall l, NoDup (creation_times l) -> NoDup (ids (run (freshBoard []) l))) as H.
  { intros l Hl. apply NoDup_ids_run. cbn. unfold created_ids.
    apply NoDup_fmap_2; [|done]. intros a b. apply stamp_inj. }
  split; [by apply H|]. split; [done|]. split; [by apply H|done].
Qed.

(** C6 on a sequence with a deletion and a bring-to-front, and on three
    creations. *)
Lemma C6_ids_unique_witness :
  NoDup (ids (run (freshBoard [])
                [AddNote 1 0 0 0; DeleteNote "1"; AddNote 2 0 0 0; BringToFront "2"]))
  /\ zIndex <$> notes (run (freshBoard [])
                         [AddNote 1 0 0 0; AddNote 2 (1 # 2) 0 0; AddNote 3 0 0 (7 # 8)])
     = [101; 102; 103]%Q.
Proof.
  destruct (C6_ids_unique
              [AddNote 1 0 0 0; DeleteNote "1"; AddNote 2 0 0 0; BringToFront "2"]
              1 2 3 0 0 0 (1 # 2) 0 0 0 0 (7 # 8)) as (H1 & _ & _ & H2).
  - cbn. apply NoDup_cons. split; [|apply NoDup_singleton].
    intros H. apply list_elem_of_singleton in H. discriminate.
  - repeat (apply NoDup_cons; split;
            [intros H; repeat (apply elem_of_cons in H as [H|H]; [discriminate|]);
             by apply elem_of_nil in H|]).
    apply NoDup_nil_2.
  - by split.
Defined.

(** ** Creations and deletions *)

Lemma no_reuse_weaken (evs : list Event) : forall gone gone',
  gone' ⊆ gone -> no_reuse gone evs -> no_reuse gone' evs.
Proof.
  induction evs as [|ev evs IH]; intros gone gone' Hsub H; [done|].
  destruct ev; cbn in *; try by eapply IH.
  - destruct H as [H1 H2]. split; [set_solver|by eapply IH].
  - eapply IH; [|done]. set_solver.
Qed.

Lemma no_reuse_not_created (evs : list Event) : forall gone i,
  no_reuse gone evs -> i ∈ gone -> i ∉ created_ids evs.
Proof.
  unfold created_ids.
  induction evs as [|ev evs IH]; intros gone i H Hi; [by apply not_elem_of_nil|].
  destruct ev; cbn in *; try by eapply IH.
  - destruct H as [H1 H2]. apply not_elem_of_cons. split; [set_solver|by eapply IH].
  - eapply IH; [done|]. set_solver.
Qed.

Lemma ids_run_create_delete (evs : list Event) : forall b,
  Forall create_or_delete evs -> no_reuse [] evs ->
  (list_to_set (ids (run b evs)) : gset string)
  = (list_to_set (ids b) ∪ list_to_set (created_ids evs)) ∖ list_to_set (deleted_ids evs).
Proof.
  induction evs as [|ev evs IH]; intros b Hcd Hfresh.
  - cbn. set_solver.
  - apply Forall_cons in Hcd as [Hev Hcd].
    cbn [run foldl]. change (foldl handle ?b0 ?l) with (run b0 l).
    destruct ev as [now r1 r2 r3|i| | | | | | |]; try done.
    + destruct Hfresh as [_ Hfresh]. rewrite IH by done.
      pose proof (ids_handle_sublist b (AddNote now r1 r2 r3)) as ->.
      unfold created_ids. cbn [creation_times deleted_ids]. rewrite fmap_cons.
      rewrite list_to_set_app_L, list_to_set_cons. set_solver.
    + cbn [no_reuse] in Hfresh.
      pose proof (no_reuse_not_created evs [i] i Hfresh) as Hi.
      rewrite IH; [|done|apply (no_reuse_weaken evs [i] []); [apply list_subseteq_nil|done]].
      cbn [deleted_ids]. unfold created_ids in *. cbn [creation_times].
      assert ((list_to_set (ids (handle b (DeleteNote i))) : gset string)
              = list_to_set (ids b) ∖ {[i]}) as ->.
      { apply set_eq. intros j. unfold ids. cbn.
        rewrite elem_of_list_to_set, elem_of_difference, elem_of_list_to_set.
        rewrite !list_elem_of_fmap. setoid_rewrite list_elem_of_filter. set_solver. }
      rewrite list_to_set_cons.
      assert (i ∉ (list_to_set (stamp <$> creation_times evs) : gset string))
        by (rewrite elem_of_list_to_set; apply Hi; set_solver).
      set_solver.
Qed.

(** C7 fails as stated: an id that is created, deleted and created again
    at the same clock reading is in the collection, and not in the created
    ids minus the deleted ones. *)
Lemma C7_counterexample :
  Forall create_or_delete recreate
  /\ (list_to_set (ids (run (freshBoard []) recreate)) : gset string)
     <> list_to_set (created_ids recreate) ∖ list_to_set (deleted_ids recreate).
Proof.
  split; [by repeat constructor|].
  replace (ids (run (freshBoard []) recreate)) with ["1762075200000"]
    by (vm_compute; reflexivity).
  replace (created_ids recreate) with ["1762075200000"; "1762075200000"]
    by (vm_compute; reflexivity).
  replace (deleted_ids recreate) with ["1762075200000"] by reflexivity.
  intros H. assert ("1762075200000" ∈ (list_to_set ["1762075200000"] : gset string)) as Hin
    by set_solver.
  rewrite H in Hin. set_solver.
Qed.

(** C7, amended. For every sequence of creations and deletions from the
    empty board in which no creation draws an id that an earlier deletion
    was given, the set of ids of the collection is the set of created ids
    minus the set of ids passed to [deleteNote]. *)
Theorem C7_ids_created_minus_deleted (evs : list Event) :
  Forall create_or_delete evs -> no_reuse [] evs ->
  (list_to_set (ids (run (freshBoard []) evs)) : gset string)
  = list_to_set (created_ids evs) ∖ list_to_set (deleted_ids evs).
Proof.
  intros Hcd Hfresh. rewrite ids_run_create_delete by done. cbn. set_solver.
Qed.

(** C7 on two creations and two deletions, one of an absent id. *)
Lemma C7_ids_created_minus_deleted_witness :
  (list_to_set (ids (run (freshBoard [])
                       [AddNote 1 0 0 0; AddNote 2 0 0 0; DeleteNote "1"; DeleteNote "7"]))
   : gset string)
  = list_to_set (created_ids [AddNote 1 0 0 0; AddNote 2 0 0 0; DeleteNote "1"; DeleteNote "7"])
    ∖ list_to_set (deleted_ids [AddNote 1 0 0 0; AddNote 2 0 0 0; DeleteNote "1"; DeleteNote "7"]).
Proof.
  apply C7_ids_created_minus_deleted.
  - by repeat constructor.
  - cbn. split; [apply not_elem_of_nil|]. split; [apply not_elem_of_nil|done].
Defined.

(** ** Numbers with a finite decimal expansion *)

Lemma divide_pow10_coprime (d : Z) (m : nat) :
  Z.gcd d 10 = 1 -> (d | 10 ^ Z.of_nat m) -> (d | 1).
Proof.
  intros Hg. induction m as [|m IH]; [done|].
  rewrite Nat2Z.inj_succ, Z.pow_succ_r by lia. intros Hd.
  apply IH. by apply (Z.gauss d 10).
Qed.

Lemma divide_pow10_bound (s : nat) : forall (d : Z) (m : nat),
  0 < d < 2 ^ Z.of_nat s -> (d | 10 ^ Z.of_nat m) -> (d | 10 ^ Z.of_nat s).
Proof.
  induction s as [|s IH]; intros d m Hd Hm.
  - change (2 ^ Z.of_nat 0) with 1 in Hd. lia.
  - rewrite Nat2Z.inj_succ, Z.pow_succ_r in Hd |- * by lia.
    pose proof (Z.gcd_divide_l d 10) as Hgd. pose proof (Z.gcd_divide_r d 10) as Hg10.
    pose proof (Z.gcd_nonneg d 10) as Hg0.
    assert (Z.gcd d 10 <= 10) as Hle by (apply Z.divide_pos_le; [lia|done]).
    assert (Z.gcd d 10 <> 0) as Hne by (intros H0; apply Z.gcd_eq_0_l in H0; lia).
    assert (Z.gcd d 10 = 1 \/ (2 | d) \/ (5 | d)) as [H1|[[d' ->]|[d' ->]]].
    { destruct Hg10 as [z Hz]. remember (Z.gcd d 10) as g eqn:Hg.
      assert (g = 1 \/ g = 2 \/ g = 3 \/ g = 4 \/ g = 5 \/ g = 6 \/ g = 7
              \/ g = 8 \/ g = 9 \/ g = 10) as Hc by lia.
      destruct Hc as [->|[->|[->|[->|[->|[->|[->|[->|[->| ->]]]]]]]]]; try lia; auto.
      right; left. etrans; [|exact Hgd]. exists 5; lia. }
    + apply (divide_pow10_coprime d m H1) in Hm.
      assert (d = 1) as -> by (apply Z.divide_1_r_nonneg; [lia|done]).
      apply Z.divide_1_l.
    + assert (d' | 10 ^ Z.of_nat s) as Hd'.
      { apply (IH d' m); [lia|]. etrans; [|exact Hm]. exists 2; lia. }
      destruct Hd' as [z Hz]. exists (5 * z). lia.
    + assert (d' | 10 ^ Z.of_nat s) as Hd'.
      { apply (IH d' m); [lia|]. etrans; [|exact Hm]. exists 5; lia. }
      destruct Hd' as [z Hz]. exists (2 * z). lia.
Qed.

Lemma decimal_places_from_complete (fuel : nat) : forall k d j,
  (k <= j <= k + fuel)%nat -> (10 ^ Z.of_nat j) mod Zpos d = 0 ->
  decimal_places_from fuel k d <> None.
Proof.
  induction fuel as [|f IH]; intros k d j Hj Hd; cbn [decimal_places_from];
    destruct (Z.eqb_spec (10 ^ Z.of_nat k mod Z.pos d) 0) as [He|Hne]; try done.
  - assert (j = k) as -> by lia. done.
  - apply (IH (S k) d j); [|done]. assert (j <> k) by (by intros ->). lia.
Qed.

Lemma decimal_places_complete (d : positive) (m : nat) :
  (Zpos d | 10 ^ Z.of_nat m) -> decimal_places d <> None.
Proof.
  intros Hm. unfold decimal_places.
  apply (decimal_places_from_complete _ 0 d (Pos.size_nat d)); [lia|].
  apply Z.mod_divide; [lia|]. apply (divide_pow10_bound _ _ m); [|done].
  split; [lia|]. by apply Zpower2_Psize.
Qed.

(** A number has a finite decimal expansion exactly when it is an integer
    over a power of ten. *)
Lemma finite_decimal_iff (q : number) :
  finite_decimal q = true
  <-> exists (n : Z) (m : nat), (q == n # Z.to_pos (10 ^ Z.of_nat m))%Q.
Proof.
  unfold finite_decimal. split.
  - pose proof (Qred_correct q) as Hq. destruct (Qred q) as [a d]. cbn [Qden].
    destruct (decimal_places d) as [k|] eqn:Hk; [|done]. intros _.
    apply decimal_places_from_divides in Hk.
    apply Z.mod_divide in Hk as [c Hc]; [|lia].
    assert (0 < 10 ^ Z.of_nat k) by (apply Z.pow_pos_nonneg; lia).
    exists (a * c), k. rewrite <- Hq. unfold Qeq. cbn [Qnum Qden].
    rewrite Z2Pos.id by lia. rewrite Hc. lia.
  - intros (n & m & Hq).
    assert (0 < 10 ^ Z.of_nat m) by (apply Z.pow_pos_nonneg; lia).
    assert (decimal_places (Qden (Qred q)) <> None) as Hd; [|by destruct decimal_places].
    apply (decimal_places_complete _ m).
    rewrite (Qred_complete _ _ Hq). unfold Qred.
    pose proof (Z.ggcd_correct_divisors n (Zpos (Z.to_pos (10 ^ Z.of_nat m)))) as Hg.
    pose proof (Z.ggcd_gcd n (Zpos (Z.to_pos (10 ^ Z.of_nat m)))) as Hgcd.
    destruct (Z.ggcd n (Zpos (Z.to_pos (10 ^ Z.of_nat m)))) as [g [aa bb]].
    destruct Hg as [_ Hbb]. cbn [Qden fst] in *. rewrite Z2Pos.id in Hbb by lia.
    assert (0 < bb).
    { pose proof (Z.gcd_nonneg n (Z.pos (Z.to_pos (10 ^ Z.of_nat m)))). nia. }
    cbn [snd Qden]. rewrite Z2Pos.id by lia. exists g. lia.
Qed.

Lemma pow10_pos (m : nat) : 0 < 10 ^ Z.of_nat m.
Proof. apply Z.pow_pos_nonneg; lia. Qed.

Lemma finite_decimal_mult (a b : number) :
  finite_decimal a = true -> finite_decimal b = true -> finite_decimal (a * b) = true.
Proof.
  rewrite !finite_decimal_iff. intros (n1 & m1 & H1) (n2 & m2 & H2).
  exists (n1 * n2), (m1 + m2)%nat. rewrite H1, H2.
  pose proof (pow10_pos m1). pose proof (pow10_pos m2).
  unfold Qeq, Qmult. cbn [Qnum Qden].
  rewrite Nat2Z.inj_add, Z.pow_add_r, Pos2Z.inj_mul, !Z2Pos.id by lia. lia.
Qed.

Lemma finite_decimal_minus (a b : number) :
  finite_decimal a = true -> finite_decimal b = true -> finite_decimal (a - b) = true.
Proof.
  rewrite !finite_decimal_iff. intros (n1 & m1 & H1) (n2 & m2 & H2).
  exists (n1 * 10 ^ Z.of_nat m2 - n2 * 10 ^ Z.of_nat m1), (m1 + m2)%nat. rewrite H1, H2.
  pose proof (pow10_pos m1). pose proof (pow10_pos m2).
  unfold Qeq, Qminus, Qplus, Qopp. cbn [Qnum Qden].
  rewrite Nat2Z.inj_add, Z.pow_add_r, Pos2Z.inj_mul, !Z2Pos.id by lia. lia.
Qed.

Lemma finite_decimal_plus (a b : number) :
  finite_decimal a = true -> finite_decimal b = true -> finite_decimal (a + b) = true.
Proof.
  rewrite !finite_decimal_iff. intros (n1 & m1 & H1) (n2 & m2 & H2).
  exists (n1 * 10 ^ Z.of_nat m2 + n2 * 10 ^ Z.of_nat m1), (m1 + m2)%nat. rewrite H1, H2.
  pose proof (pow10_pos m1). pose proof (pow10_pos m2).
  unfold Qeq, Qplus. cbn [Qnum Qden].
  rewrite Nat2Z.inj_add, Z.pow_add_r, Pos2Z.inj_mul, !Z2Pos.id by lia. lia.
Qed.

Lemma finite_decimal_Math_max (a b : number) :
  finite_decimal a = true -> finite_decimal b = true ->
  finite_decimal (Math_max a b) = true.
Proof. intros Ha Hb. unfold Math_max. by destruct (Qle_bool a b). Qed.

Lemma finite_note_intro (note : Note) :
  finite_decimal (x note) = true -> finite_decimal (y note) = true ->
  finite_decimal (width note) = true -> finite_decimal (height note) = true ->
  finite_decimal (zIndex note) = true -> finite_note note = true.
Proof. intros Hx Hy Hw Hh Hz. unfold finite_note. by rewrite Hx, Hy, Hw, Hh, Hz. Qed.

Lemma finite_note_elim (note : Note) :
  finite_note note = true ->
  finite_decimal (x note) = true /\ finite_decimal (y note) = true
  /\ finite_decimal (width note) = true /\ finite_decimal (height note) = true
  /\ finite_decimal (zIndex note) = true.
Proof. unfold finite_note. rewrite !andb_true_iff. tauto. Qed.

Lemma finite_fmap_if (f : Note -> Note) (i : string) (l : list Note) :
  Forall (fun note => finite_note note = true) l ->
  (forall note, finite_note note = true -> finite_note (f note) = true) ->
  Forall (fun note => finite_note note = true)
    ((fun note => if decide (id note = i) then f note else note) <$> l).
Proof.
  intros Hl Hf. apply Forall_fmap. eapply Forall_impl; [exact Hl|].
  intros note Hn. cbn. case_decide; auto.
Qed.

Lemma finite_board_handle (b : Board) (ev : Event) :
  finite_event ev -> finite_board b -> finite_board (handle b ev).
Proof.
  intros Hev (Hn & Hz & Hx & Hy).
  assert (finite_decimal (maxZIndex b + 1) = true) as Hz'
    by (apply finite_decimal_plus; [done|apply (finite_decimal_inject_Z 1)]).
  destruct ev as [now r1 r2 r3|i|i c|i c|i|e rect c i|e c| |]; cbn.
  - destruct Hev as [H1 H2]. split; [|done]. cbn. apply Forall_app. split; [done|].
    apply Forall_singleton. apply finite_note_intro; cbn; try done.
    + apply finite_decimal_mult; [done|apply (finite_decimal_inject_Z 300)].
    + apply finite_decimal_mult; [done|apply (finite_decimal_inject_Z 200)].
  - split; [|done]. cbn. apply Forall_forall. intros note Hnote.
    apply list_elem_of_filter in Hnote as [_ Hnote].
    by apply (proj1 (Forall_forall _ _) Hn).
  - split; [|done]. cbn. by apply finite_fmap_if.
  - split; [|done]. cbn. by apply finite_fmap_if.
  - split; [|done]. cbn. apply finite_fmap_if; [done|].
    intros note Hnote. apply finite_note_elim in Hnote as (? & ? & ? & ? & ?).
    by apply finite_note_intro.
  - unfold handleMouseDown. destruct c; [|done].
    destruct Hev as (He1 & He2 & Hr1 & Hr2). split; [|split; [done|]]; cbn.
    + apply finite_fmap_if; [done|].
      intros note Hnote. apply finite_note_elim in Hnote as (? & ? & ? & ? & ?).
      by apply finite_note_intro.
    + split; by apply finite_decimal_minus.
  - unfold handleMouseMove. destruct (isDragging (dragState b)); [|done]. cbn.
    destruct (truthy_id (noteId (dragState b))); [|done]. destruct c as [c|]; [|done].
    destruct Hev as (He1 & He2 & Hc1 & Hc2). split; [|done]. cbn.
    apply finite_fmap_if; [done|].
    intros note Hnote. apply finite_note_elim in Hnote as (? & ? & ? & ? & ?).
    apply finite_note_intro; cbn; try done.
    + apply finite_decimal_Math_max; [done|]. by repeat apply finite_decimal_minus.
    + apply finite_decimal_Math_max; [done|]. by repeat apply finite_decimal_minus.
  - done.
  - split; [|done]. cbn. constructor.
Qed.

Lemma finite_board_run (evs : list Event) : forall b,
  Forall finite_event evs -> finite_board b -> finite_board (run b evs).
Proof.
  induction evs as [|ev evs IH]; intros b Hevs Hb; [done|].
  apply Forall_cons in Hevs as [Hev Hevs]. cbn. apply IH; [done|].
  by apply finite_board_handle.
Qed.

Lemma finite_board_fresh : finite_board (freshBoard []).
Proof. by repeat split. Qed.

(** ** The snapshot *)

Lemma finite_notes_Forall (ns : list Note) :
  forallb finite_note ns = true -> Forall (fun note => finite_note note = true) ns.
Proof.
  intros H. apply Forall_forall. intros note Hn.
  by apply (proj1 (forallb_forall _ _) H), list_elem_of_In.
Qed.

Lemma reread_note_equiv (note : Note) :
  finite_note note = true -> note_equiv note (reread_note note).
Proof.
  unfold finite_note. rewrite !andb_true_iff. intros ((((Hx & Hy) & Hw) & Hh) & Hz).
  unfold note_equiv. cbn. repeat split; symmetry; by apply reread_equiv.
Qed.

Lemma saveEffect_fits (onNotesChange : bool) (ns : list Note) (w : World) :
  (usage (<["sticky-notes" := JSON_stringify (notes_to_js ns)]> (items (localStorage w)))
   <= quota (localStorage w))%nat ->
  exists w', saveEffect onNotesChange ns w = Ok w'
             /\ getItem (localStorage w') "sticky-notes"
                = Some (JSON_stringify (notes_to_js ns)).
Proof.
  intros Hfit. unfold saveEffect, setItem.
  apply Nat.leb_le in Hfit. rewrite Hfit. cbn [bind]. eexists. split; [done|].
  unfold getItem. cbn. apply lookup_insert_eq.
Qed.

Lemma initNotes_snapshot (ls : Storage) (ns : list Note) (initialNotes : JSValue) :
  Forall (fun note => finite_note note = true) ns ->
  getItem ls "sticky-notes" = Some (JSON_stringify (notes_to_js ns)) ->
  initNotes ls initialNotes = notes_to_js (map reread_note ns).
Proof.
  intros Hns Hget. unfold initNotes. rewrite Hget, JSON_parse_notes by done.
  by rewrite notes_json.
Qed.

(** Saving a collection of notes whose numbers have a finite decimal
    expansion, then hydrating a fresh component from the storage. *)
Lemma save_then_hydrate (onNotesChange : bool) (ns initialNotes : list Note)
    (w : World) :
  Forall (fun note => finite_note note = true) ns ->
  (usage (<["sticky-notes" := JSON_stringify (notes_to_js ns)]> (items (localStorage w)))
   <= quota (localStorage w))%nat ->
  exists w' b',
    saveEffect onNotesChange ns w = Ok w'
    /\ hydrate (localStorage w') initialNotes = Some b'
    /\ notes b' = map reread_note ns
    /\ Forall2 note_equiv ns (notes b')
    /\ maxZIndex b' = 100%Q
    /\ dragState b' = idle.
Proof.
  intros Hns Hfit.
  destruct (saveEffect_fits onNotesChange ns w Hfit) as (w' & Hsave & Hget).
  exists w', (freshBoard (map reread_note ns)). split; [done|]. split.
  - unfold hydrate. rewrite (initNotes_snapshot _ ns) by done.
    by rewrite notes_of_js_to_js.
  - split; [done|]. split; [|done]. cbn [notes freshBoard].
    clear Hfit Hsave Hget. induction Hns as [|note ns Hn Hns IH]; [constructor|].
    cbn [map]. constructor; [by apply reread_note_equiv|done].
Qed.

(** C3, at the failing input. A session on an empty storage creates one
    note, and the effect saves the snapshot. The notes come back from the
    snapshot, but the board does not: the session ended with the counter
    at 101, which bounds the z-index of its note, and the component that
    mounts on the storage has the note with its z-index 101 under a
    counter at 100. The counter is no part of the snapshot, and the
    initializers do not derive it from the notes they read. *)
Theorem C3_reload_resets_counter :
  exists w b b',
    first_session = Ok (w, b)
    /\ getItem (localStorage w) "sticky-notes"
       = Some (JSON_stringify (notes_to_js (notes b)))
    /\ hydrate (localStorage w) [] = Some b'
    /\ length (notes b) = 1%nat
    /\ Forall2 note_equiv (notes b) (notes b')
    /\ (maxZIndex b == 101)%Q /\ z_bounded b
    /\ maxZIndex b' = 100%Q /\ ~ z_bounded b'.
Proof.
  eexists _, _, _. split; [vm_compute; reflexivity|].
  split; [vm_compute; reflexivity|]. split; [vm_compute; reflexivity|].
  split; [reflexivity|]. split; [by repeat constructor|]. split; [done|].
  split; [|split; [done|]].
  - intros note Hn. apply list_elem_of_singleton in Hn as ->. done.
  - intros Hb. specialize (Hb _ (list_elem_of_here _ _)). cbn in Hb.
    by apply Qle_not_lt in Hb.
Qed.

(** The round trip of the notes. For every collection of notes (their
    numbers with a finite decimal expansion, as every double has) that
    the storage has room for, the save effect writes the snapshot, and a
    fresh component hydrated from the resulting storage has an equivalent
    collection: the same notes in the same order, each with the same id,
    content and color and numbers of the same value for x, y, width,
    height and z-index, whatever the caller's initial notes are. Its
    counter is 100 and no drag is active. *)
Theorem snapshot_roundtrip (onNotesChange : bool) (ns initialNotes : list Note)
    (w : World) :
  forallb finite_note ns = true ->
  (usage (<["sticky-notes" := JSON_stringify (notes_to_js ns)]> (items (localStorage w)))
   <= quota (localStorage w))%nat ->
  exists w' b',
    saveEffect onNotesChange ns w = Ok w'
    /\ hydrate (localStorage w') initialNotes = Some b'
    /\ notes b' = map reread_note ns
    /\ Forall2 note_equiv ns (notes b')
    /\ maxZIndex b' = 100%Q
    /\ dragState b' = idle.
Proof.
  intros Hns Hfit. apply save_then_hydrate; [|done]. by apply finite_notes_Forall.
Qed.

(** The round trip of two notes, one at a fractional position. *)
Lemma snapshot_roundtrip_witness :
  exists w' b',
    saveEffect true [corner_note; with_position (1 # 4) (75 # 2) corner_note]
               (empty_world 4096) = Ok w'
    /\ hydrate (localStorage w') [corner_note] = Some b'
    /\ notes b'
       = map reread_note [corner_note; with_position (1 # 4) (75 # 2) corner_note]
    /\ Forall2 note_equiv
         [corner_note; with_position (1 # 4) (75 # 2) corner_note] (notes b')
    /\ maxZIndex b' = 100%Q
    /\ dragState b' = idle.
Proof.
  apply (snapshot_roundtrip true
           [corner_note; with_position (1 # 4) (75 # 2) corner_note] [corner_note]
           (empty_world 4096)).
  - vm_compute. reflexivity.
  - vm_compute. lia.
Defined.

(** Every collection that the component reaches from the empty board, by
    events whose numeric inputs have a finite decimal expansion, survives
    the save and the hydration of a fresh component. *)
Theorem snapshot_roundtrip_reachable (onNotesChange : bool) (evs : list Event)
    (initialNotes : list Note) (w : World) :
  Forall finite_event evs ->
  (usage (<["sticky-notes" := JSON_stringify (notes_to_js (notes (run (freshBoard []) evs)))]>
            (items (localStorage w)))
   <= quota (localStorage w))%nat ->
  exists w' b',
    saveEffect onNotesChange (notes (run (freshBoard []) evs)) w = Ok w'
    /\ hydrate (localStorage w') initialNotes = Some b'
    /\ notes b' = map reread_note (notes (run (freshBoard []) evs))
    /\ Forall2 note_equiv (notes (run (freshBoard []) evs)) (notes b')
    /\ maxZIndex b' = 100%Q
    /\ dragState b' = idle.
Proof.
  intros Hevs Hfit. apply save_then_hydrate; [|done].
  by apply (finite_board_run evs (freshBoard []) Hevs finite_board_fresh).
Qed.

(** The round trip of the board reached by a creation at a random
    position followed by a drag. *)
Lemma snapshot_roundtrip_reachable_witness :
  exists w' b',
    saveEffect true (notes (run (freshBoard []) drag_session)) (empty_world 4096) = Ok w'
    /\ hydrate (localStorage w') [] = Some b'
    /\ notes b' = map reread_note (notes (run (freshBoard []) drag_session))
    /\ Forall2 note_equiv (notes (run (freshBoard []) drag_session)) (notes b')
    /\ maxZIndex b' = 100%Q
    /\ dragState b' = idle.
Proof.
  apply (snapshot_roundtrip_reachable true drag_session [] (empty_world 4096)).
  - repeat constructor.
  - vm_compute. lia.
Defined.

(** ** Further properties of the board *)

(** [addNote_spec] on the empty board. *)
Lemma addNote_spec_witness :
  exists note,
    notes (addNote 1762075200000 (1 # 2) (1 # 4) 0 (freshBoard [])) = ([] ++ [note])%list
    /\ id note = stamp 1762075200000
    /\ (0 <= x note)%Q /\ (x note < 300)%Q
    /\ (0 <= y note)%Q /\ (y note < 200)%Q
    /\ width note = 200%Q /\ height note = 200%Q
    /\ color note ∈ COLORS
    /\ zIndex note = (100 + 1)%Q
    /\ maxZIndex (addNote 1762075200000 (1 # 2) (1 # 4) 0 (freshBoard [])) = (100 + 1)%Q
    /\ (z_bounded (freshBoard []) ->
        forall other, other ∈ notes (freshBoard []) -> (zIndex other < zIndex note)%Q).
Proof.
  apply (addNote_spec 1762075200000 (1 # 2) (1 # 4) 0 (freshBoard []));
    split; unfold Qle, Qlt; cbn; lia.
Defined.

(** From the empty board, the counter bounds the z-index of every note
    after every sequence of events. *)
Theorem counter_bounds_from_empty (evs : list Event) :
  z_bounded (run (freshBoard []) evs).
Proof. apply z_bounded_run, z_bounded_freshBoard_nil. Qed.

(** The scenario of the specification: create A (101), create B (102),
    bring A to the front: A has 103 and B still 102. *)
Example bringToFront_scenario :
  let b := run (freshBoard [])
             [AddNote 1762075200000 0 0 0; AddNote 1762075200001 0 0 0;
              BringToFront "1762075200000"] in
  (fun note => (id note, zIndex note)) <$> notes b
  = [("1762075200000", 103%Q); ("1762075200001", 102%Q)]
  /\ maxZIndex b = 103%Q.
Proof. by vm_compute. Qed.

(** The scenario of the specification: clearing a board of five notes
    leaves an empty collection, and the snapshot is the empty array. *)
Example clearAll_scenario :
  exists w b w' b',
    session (empty_world 4096, freshBoard []) five_notes = Ok (w, b)
    /\ length (notes b) = 5%nat
    /\ dispatch false (w, b) ClearAllNotes = Ok (w', b')
    /\ notes b' = []
    /\ getItem (localStorage w') "sticky-notes" = Some "[]".
Proof.
  eexists _, _, _, _. split; [vm_compute; reflexivity|]. split; [reflexivity|].
  split; [vm_compute; reflexivity|]. split; reflexivity.
Qed.

(** Positions are never negative: from the empty board, after every
    sequence of events whose random numbers are in [0,1), every note has
    [x >= 0] and [y >= 0]. *)
Lemma positions_nonneg_handle (b : Board) (ev : Event) :
  random_ok ev -> positions_nonneg b -> positions_nonneg (handle b ev).
Proof.
  intros Hev Hb.
  assert (forall (f : Note -> Note) i m d,
            (forall note, note ∈ notes b -> (0 <= x (f note))%Q /\ (0 <= y (f note))%Q) ->
            positions_nonneg
              {| notes := (fun note => if decide (id note = i) then f note else note)
                            <$> notes b;
                 maxZIndex := m; dragState := d |}) as Hmap.
  { intros f i m d Hf note Hn. cbn in Hn.
    apply list_elem_of_fmap in Hn as (n0 & -> & Hn0). case_decide; auto. }
  destruct ev as [now r1 r2 r3|i|i c|i c|i|e rect c i|e c| |]; cbn.
  - destruct Hev as ([H1 _] & [H2 _] & _). intros note Hn. cbn in Hn.
    apply elem_of_app in Hn as [Hn|Hn]; [by apply Hb|].
    apply list_elem_of_singleton in Hn as ->. cbn.
    split; (apply Qmult_le_0_compat; [done|unfold Qle; cbn; lia]).
  - intros note Hn. cbn in Hn. apply list_elem_of_filter in Hn as [_ Hn]. by apply Hb.
  - apply Hmap. intros note Hn. cbn. by apply Hb.
  - apply Hmap. intros note Hn. cbn. by apply Hb.
  - apply Hmap. intros note Hn. cbn. by apply Hb.
  - unfold handleMouseDown. destruct c; [|done]. apply Hmap. intros note Hn. cbn. by apply Hb.
  - unfold handleMouseMove. destruct (isDragging (dragState b)); [|done]. cbn.
    destruct (truthy_id (noteId (dragState b))); [|done]. destruct c; [|done].
    apply Hmap. intros note Hn. cbn. split; apply Math_max_0_nonneg.
  - done.
  - intros note Hn. by apply elem_of_nil in Hn.
Qed.

Theorem positions_nonneg_from_empty (evs : list Event) :
  Forall random_ok evs -> positions_nonneg (run (freshBoard []) evs).
Proof.
  assert (forall l b, Forall random_ok l -> positions_nonneg b ->
                      positions_nonneg (run b l)) as H.
  { induction l as [|ev l IH]; intros b Hl Hb; [done|].
    apply Forall_cons in Hl as [Hev Hl]. cbn. apply IH; [done|].
    by apply positions_nonneg_handle. }
  intros Hevs. apply H; [done|]. intros note Hn. by apply elem_of_nil in Hn.
Qed.

(** [positions_nonneg_from_empty] on a creation followed by a drag towards
    the upper left. *)
Lemma positions_nonneg_from_empty_witness :
  positions_nonneg
    (run (freshBoard [])
       [AddNote 1 (1 # 2) (1 # 4) 0;
        MouseDown {| clientX := 170; clientY := 80 |} {| left := 160; top := 70 |}
                  (Some {| left := 10; top := 20 |}) "1";
        MouseMove {| clientX := -30; clientY := -20 |} (Some {| left := 10; top := 20 |});
        MouseUp]).
Proof.
  apply positions_nonneg_from_empty.
  repeat constructor; unfold Qle, Qlt; cbn; lia.
Defined.

(** ** A whole drag *)

Lemma run_cons (b : Board) (ev : Event) (evs : list Event) :
  run b (ev :: evs) = run (handle b ev) evs.
Proof. done. Qed.

Lemma run_app (b : Board) (evs evs' : list Event) :
  run b (evs ++ evs') = run (run b evs) evs'.
Proof. unfold run. apply foldl_app. Qed.

(** A whole drag: a press on a note of a non-empty id, any path of
    pointer moves, and the release. Whatever the path was, the board is
    the one of the press with every note of the pressed id raised to the
    counter plus one and put where the last move leaves it: at the
    pointer less the origin of the workspace and the grab offset of the
    press, a negative coordinate replaced by 0. The notes of another id
    are as they were, the counter has advanced by one, the drag state is
    idle again and no listener is left on the document. *)
Theorem drag_gesture (b : Board) (e : MouseEvent) (rect c : DOMRect) (i : string)
    (path : list (MouseEvent * DOMRect)) (e' : MouseEvent) (c' : DOMRect) :
  i <> "" ->
  (forall k note, notes b !! k = Some note -> id note = i ->
     exists note',
       notes (run b (MouseDown e rect (Some c) i
                       :: move_events (path ++ [(e', c')]) ++ [MouseUp])) !! k
       = Some note'
       /\ ((0 <= clientX e' - left c' - (clientX e - left rect))%Q ->
           x note' = (clientX e' - left c' - (clientX e - left rect))%Q)
       /\ ((clientX e' - left c' - (clientX e - left rect) < 0)%Q -> x note' = 0%Q)
       /\ ((0 <= clientY e' - top c' - (clientY e - top rect))%Q ->
           y note' = (clientY e' - top c' - (clientY e - top rect))%Q)
       /\ ((clientY e' - top c' - (clientY e - top rect) < 0)%Q -> y note' = 0%Q)
       /\ zIndex note' = (maxZIndex b + 1)%Q
       /\ id note' = id note /\ content note' = content note
       /\ width note' = width note /\ height note' = height note
       /\ color note' = color note)
  /\ (forall k other, notes b !! k = Some other -> id other <> i ->
        notes (run b (MouseDown e rect (Some c) i
                        :: move_events (path ++ [(e', c')]) ++ [MouseUp])) !! k
        = Some other)
  /\ maxZIndex (run b (MouseDown e rect (Some c) i
                         :: move_events (path ++ [(e', c')]) ++ [MouseUp]))
     = (maxZIndex b + 1)%Q
  /\ dragState (run b (MouseDown e rect (Some c) i
                         :: move_events (path ++ [(e', c')]) ++ [MouseUp])) = idle
  /\ listeners (run b (MouseDown e rect (Some c) i
                         :: move_events (path ++ [(e', c')]) ++ [MouseUp])) = [].
Proof.
  intros Hi. rewrite run_cons, run_app.
  assert (dragging (handle b (MouseDown e rect (Some c) i)) i) as Hd
    by (split; [done|]; cbn; by destruct i).
  rewrite (run_moves path _ i e' c' Hd). cbn [run foldl handle handleMouseUp notes
    maxZIndex dragState].
  split; [|split; [|by repeat split]].
  - intros k note Hk Hid. unfold dragged_to. cbn [handle handleMouseDown bringToFront notes
      dragState offset px py].
    rewrite !list_lookup_fmap, Hk. cbn [fmap option_fmap option_map].
    rewrite (decide_True (P := id note = i)) by done.
    rewrite decide_True by done. eexists. split; [done|]. cbn.
    destruct (Math_max_0_cases (clientX e' - left c' - (clientX e - left rect))) as [Hx1 Hx2].
    destruct (Math_max_0_cases (clientY e' - top c' - (clientY e - top rect))) as [Hy1 Hy2].
    by repeat split.
  - intros k other Hk Hid. unfold dragged_to. cbn [handle handleMouseDown bringToFront notes
      dragState offset px py].
    rewrite !list_lookup_fmap, Hk. cbn [fmap option_fmap option_map].
    rewrite (decide_False (P := id other = i)) by done. by rewrite decide_False.
Qed.

Lemma drag_gesture_witness :
  (exists note',
     notes (run {| notes := [corner_note; far_note]; maxZIndex := 102; dragState := idle |}
              (MouseDown {| clientX := 70; clientY := 80 |} {| left := 60; top := 70 |}
                         (Some {| left := 10; top := 20 |}) "1"
                 :: move_events ([({| clientX := -30; clientY := -20 |},
                                   {| left := 10; top := 20 |})]
                                 ++ [({| clientX := 90; clientY := -20 |},
                                      {| left := 10; top := 20 |})])
                 ++ [MouseUp])) !! 0%nat = Some note'
     /\ x note' = 70%Q /\ y note' = 0%Q /\ zIndex note' = (102 + 1)%Q)
  /\ dragState (run {| notes := [corner_note; far_note]; maxZIndex := 102; dragState := idle |}
              (MouseDown {| clientX := 70; clientY := 80 |} {| left := 60; top := 70 |}
                         (Some {| left := 10; top := 20 |}) "1"
                 :: move_events ([({| clientX := -30; clientY := -20 |},
                                   {| left := 10; top := 20 |})]
                                 ++ [({| clientX := 90; clientY := -20 |},
                                      {| left := 10; top := 20 |})])
                 ++ [MouseUp])) = idle.
Proof.
  destruct (drag_gesture {| notes := [corner_note; far_note]; maxZIndex := 102;
                            dragState := idle |}
              {| clientX := 70; clientY := 80 |} {| left := 60; top := 70 |}
              {| left := 10; top := 20 |} "1"
              [({| clientX := -30; clientY := -20 |}, {| left := 10; top := 20 |})]
              {| clientX := 90; clientY := -20 |} {| left := 10; top := 20 |})
    as (H1 & _ & _ & Hd & _); [discriminate|].
  split; [|exact Hd].
  destruct (H1 0%nat _ eq_refl eq_refl) as (note' & Hk & Hx & _ & _ & Hy & Hz & _).
  exists note'. split; [exact Hk|]. split; [|split; [|exact Hz]].
  - rewrite Hx; [reflexivity|]. unfold Qle. cbn. lia.
  - apply Hy. reflexivity.
Defined.

(** ** Editing and deleting *)

Lemma fmap_if_compose (f g : Note -> Note) (i j : string) (l : list Note) :
  (forall note, id (g note) = id note) ->
  (fun note => if decide (id note = i) then f note else note)
    <$> ((fun note => if decide (id note = j) then g note else note) <$> l)
  = (fun note =>
       if decide (id note = i)
       then f (if decide (id note = j) then g note else note)
       else if decide (id note = j) then g note else note) <$> l.
Proof.
  intros Hg. rewrite <- list_fmap_compose. apply list_fmap_ext. intros k note _. cbn.
  destruct (decide (id note = j)); [rewrite Hg|]; done.
Qed.

Lemma filter_fmap_if (f : Note -> Note) (i j : string) (l : list Note) :
  (forall note, id (f note) = id note) ->
  filter (fun note => id note <> i)
         ((fun note => if decide (id note = j) then f note else note) <$> l)
  = (fun note => if decide (id note = j) then f note else note)
      <$> filter (fun note => id note <> i) l.
Proof.
  intros Hf. induction l as [|n l IH]; [done|]. cbn [fmap list_fmap].
  assert (id (if decide (id n = j) then f n else n) = id n) as Hid
    by (case_decide; [apply Hf|done]).
  destruct (decide (id n = i)) as [Hn|Hn].
  - rewrite !filter_cons_False by (rewrite ?Hid; tauto). exact IH.
  - rewrite !filter_cons_True by (rewrite ?Hid; tauto). cbn. by rewrite <- IH.
Qed.

(** Of two edits of the content of a note, or of its color, the last one
    wins. *)
Theorem edit_last_write_wins (i c1 c2 : string) (b : Board) :
  updateNoteContent i c2 (updateNoteContent i c1 b) = updateNoteContent i c2 b
  /\ updateNoteColor i c2 (updateNoteColor i c1 b) = updateNoteColor i c2 b.
Proof.
  split; unfold updateNoteContent, updateNoteColor; cbn; f_equal;
    rewrite <- list_fmap_compose; apply list_fmap_ext; intros k note _; cbn;
    destruct (decide (id note = i)) as [Hi|Hi]; cbn;
    rewrite ?decide_True by done; rewrite ?decide_False by done; done.
Qed.

(** Edits, recolorings and deletions can be applied in any order: an edit
    commutes with a recoloring and with a deletion, two deletions commute,
    and two edits commute when they are about different notes. *)
Theorem edits_commute (i j c d : string) (b : Board) :
  updateNoteContent i c (updateNoteColor j d b)
  = updateNoteColor j d (updateNoteContent i c b)
  /\ deleteNote i (updateNoteContent j c b) = updateNoteContent j c (deleteNote i b)
  /\ deleteNote i (updateNoteColor j d b) = updateNoteColor j d (deleteNote i b)
  /\ deleteNote i (deleteNote j b) = deleteNote j (deleteNote i b)
  /\ (i <> j ->
      updateNoteContent i c (updateNoteContent j d b)
      = updateNoteContent j d (updateNoteContent i c b)).
Proof.
  repeat split; unfold updateNoteContent, updateNoteColor, deleteNote; cbn.
  - f_equal. rewrite !fmap_if_compose by done. apply list_fmap_ext. intros k note _.
    cbn. by repeat case_decide.
  - f_equal. by apply filter_fmap_if.
  - f_equal. by apply filter_fmap_if.
  - f_equal. rewrite !list_filter_filter. apply list_filter_iff. tauto.
  - intros Hij. f_equal. rewrite !fmap_if_compose by done. apply list_fmap_ext.
    intros k note _. cbn. repeat case_decide; congruence.
Qed.

Lemma length_filter_NoDup (i : string) (l : list Note) :
  NoDup (id <$> l) -> i ∈ id <$> l ->
  S (length (filter (fun note => id note <> i) l)) = length l.
Proof.
  induction l as [|n l IH]; intros Hnd Hi; [by apply elem_of_nil in Hi|].
  rewrite fmap_cons in Hnd, Hi. apply NoDup_cons in Hnd as [Hn Hnd].
  destruct (decide (id n = i)) as [Heq|Hne].
  - rewrite filter_cons_False by tauto. subst i. by rewrite filter_if_absent.
  - rewrite filter_cons_True by done. cbn. f_equal. apply IH; [done|].
    apply elem_of_cons in Hi as [Hi|Hi]; [congruence|done].
Qed.

(** [deleteNote] removes the notes of the given id and nothing else: the
    other notes stay, in their order; the counter and the drag state are
    kept, even when the deleted note is the one being dragged. When the
    ids are pairwise distinct and the id is present, exactly one note
    goes. *)
Theorem deleteNote_spec (i : string) (b : Board) :
  (notes (deleteNote i b) `sublist_of` notes b)
  /\ (forall note, note ∈ notes (deleteNote i b) <-> note ∈ notes b /\ id note <> i)
  /\ (i ∉ ids (deleteNote i b))
  /\ maxZIndex (deleteNote i b) = maxZIndex b
  /\ dragState (deleteNote i b) = dragState b
  /\ (NoDup (ids b) -> i ∈ ids b ->
      S (length (notes (deleteNote i b))) = length (notes b)).
Proof.
  unfold ids. cbn. split; [apply sublist_filter|].
  split; [intros note; rewrite list_elem_of_filter; tauto|].
  split; [|split; [done|split; [done|apply length_filter_NoDup]]].
  intros (note & Hid & [Hne _]%list_elem_of_filter)%list_elem_of_fmap. congruence.
Qed.

(** ** What the handlers keep *)

(** Editing, recoloring, raising and dragging a note, and releasing the
    mouse, neither add nor remove nor reorder notes: the list of ids is
    kept. *)
Theorem ids_preserved (b : Board) (ev : Event) :
  keeps_collection ev ->
  ids (handle b ev) = ids b /\ length (notes (handle b ev)) = length (notes b).
Proof.
  intros Hev.
  assert (ids (handle b ev) = ids b) as Hids.
  { pose proof (ids_handle_sublist b ev) as H.
    destruct ev as [now r1 r2 r3|i|i c|i c|i|e rect c i|e c| |]; try done;
      unfold ids; cbn.
    - by rewrite ids_fmap_if.
    - by rewrite ids_fmap_if.
    - by rewrite ids_fmap_if.
    - unfold handleMouseDown. destruct c; [|done]. cbn. by rewrite ids_fmap_if.
    - unfold handleMouseMove. destruct (isDragging (dragState b)); [|done]. cbn.
      destruct (truthy_id (noteId (dragState b))); [|done]. destruct c; [|done].
      cbn. by rewrite ids_fmap_if. }
  split; [done|]. unfold ids in Hids.
  by rewrite <- (length_fmap id (notes (handle b ev))), Hids, length_fmap.
Qed.

Lemma ids_preserved_witness :
  ids (handle (freshBoard [corner_note]) (UpdateNoteColor "1" "#FF6B6B"))
  = ids (freshBoard [corner_note])
  /\ length (notes (handle (freshBoard [corner_note]) (UpdateNoteColor "1" "#FF6B6B")))
     = length (notes (freshBoard [corner_note])).
Proof. apply (ids_preserved (freshBoard [corner_note]) (UpdateNoteColor "1" "#FF6B6B")). exact I. Defined.

(** ** The counter *)

Lemma maxZIndex_handle (b : Board) (ev : Event) :
  (maxZIndex (handle b ev) == maxZIndex b + (if raises ev then 1 else 0))%Q.
Proof.
  destruct ev as [now r1 r2 r3|i|i c|i c|i|e rect c i|e c| |]; cbn; try lra.
  - destruct c; cbn; lra.
  - unfold handleMouseMove. destruct (isDragging (dragState b)); cbn; [|lra].
    destruct (truthy_id (noteId (dragState b))); [|lra]. destruct c; cbn; lra.
Qed.

(** The counter counts: after a sequence of events it stands at its
    initial value plus the number of creations, raisings and mouse presses
    on a note of the sequence. No event lowers or resets it, not even
    clearing the board. *)
Theorem maxZIndex_run (evs : list Event) : forall b,
  (maxZIndex (run b evs)
   == maxZIndex b + inject_Z (Z.of_nat (length (filter (fun ev => raises ev = true) evs))))%Q.
Proof.
  induction evs as [|ev evs IH]; intros b.
  - unfold run. rewrite filter_nil. cbn. apply Qeq_sym, Qplus_0_r.
  - cbn [run foldl]. change (foldl handle ?b0 ?l) with (run b0 l).
    rewrite IH, maxZIndex_handle. destruct (raises ev) eqn:Hev.
    + rewrite filter_cons_True by done. cbn [length].
      rewrite Nat2Z.inj_succ, <- Z.add_1_l, inject_Z_plus.
      change (inject_Z 1) with 1%Q. lra.
    + rewrite filter_cons_False by (rewrite Hev; done). lra.
Qed.

(** ** Sizes *)

Lemma sizes_handle (b : Board) (ev : Event) :
  (forall note, note ∈ notes b -> width note = 200%Q /\ height note = 200%Q) ->
  forall note, note ∈ notes (handle b ev) -> width note = 200%Q /\ height note = 200%Q.
Proof.
  intros Hb.
  assert (forall (f : Note -> Note) i note,
            (forall n, width (f n) = width n /\ height (f n) = height n) ->
            note ∈ (fun n => if decide (id n = i) then f n else n) <$> notes b ->
            width note = 200%Q /\ height note = 200%Q) as Hmap.
  { intros f i note Hf (n & -> & Hn)%list_elem_of_fmap.
    case_decide; [|by apply Hb]. destruct (Hf n) as [-> ->]. by apply Hb. }
  destruct ev as [now r1 r2 r3|i|i c|i c|i|e rect c i|e c| |]; cbn; intros note Hnote.
  - apply elem_of_app in Hnote as [Hnote|Hnote%list_elem_of_singleton]; [by apply Hb|].
    by subst note.
  - apply list_elem_of_filter in Hnote as [_ Hnote]. by apply Hb.
  - by refine (Hmap _ _ _ _ Hnote).
  - by refine (Hmap _ _ _ _ Hnote).
  - by refine (Hmap _ _ _ _ Hnote).
  - unfold handleMouseDown in Hnote. destruct c; [|by apply Hb]. cbn in Hnote.
    by refine (Hmap _ _ _ _ Hnote).
  - unfold handleMouseMove in Hnote.
    destruct (isDragging (dragState b)); [|by apply Hb]. cbn in Hnote.
    destruct (truthy_id (noteId (dragState b))); [|by apply Hb].
    destruct c; [|by apply Hb]. cbn in Hnote.
    by refine (Hmap _ _ _ _ Hnote).
  - by apply Hb.
  - by apply elem_of_nil in Hnote.
Qed.

Lemma sizes_run (evs : list Event) : forall b,
  (forall note, note ∈ notes b -> width note = 200%Q /\ height note = 200%Q) ->
  forall note, note ∈ notes (run b evs) -> width note = 200%Q /\ height note = 200%Q.
Proof.
  induction evs as [|ev evs IH]; intros b Hb; [exact Hb|].
  cbn [run foldl]. apply IH. by apply sizes_handle.
Qed.

(** No handler resizes a note: from the empty board, after every sequence
    of events, every note is 200 by 200. *)
Theorem sizes_fixed_from_empty (evs : list Event) (note : Note) :
  note ∈ notes (run (freshBoard []) evs) -> width note = 200%Q /\ height note = 200%Q.
Proof.
  apply sizes_run. intros n Hn. by apply elem_of_nil in Hn.
Qed.

Lemma sizes_fixed_from_empty_witness :
  width (with_zIndex 102 (with_position 5 5 corner_note)) = 200%Q
  /\ height (with_zIndex 102 (with_position 5 5 corner_note)) = 200%Q.
Proof.
  apply (sizes_fixed_from_empty
           [AddNote 1 (1 # 6) (1 # 4) 0;
            MouseDown {| clientX := 70; clientY := 80 |} {| left := 60; top := 70 |}
                      (Some {| left := 10; top := 20 |}) "1";
            MouseMove {| clientX := 25; clientY := 35 |} (Some {| left := 10; top := 20 |})]).
  vm_compute. left.
Defined.

(** ** The stacking order *)

Lemma z_separates_fmap_if (f : Note -> Note) (i : string) (b : Board) (m : number)
    (d : DragState) :
  (forall n, id (f n) = id n /\ zIndex (f n) = zIndex n) ->
  z_separates b ->
  z_separates
    {| notes := (fun n => if decide (id n = i) then f n else n) <$> notes b;
       maxZIndex := m; dragState := d |}.
Proof.
  intros Hf Hb n1 n2 (m1 & -> & H1)%list_elem_of_fmap (m2 & -> & H2)%list_elem_of_fmap Hz.
  assert (forall n, id (if decide (id n = i) then f n else n) = id n
                    /\ zIndex (if decide (id n = i) then f n else n) = zIndex n) as Hk
    by (intros n; destruct (decide (id n = i)); [apply Hf|done]).
  destruct (Hk m1) as [-> Hz1], (Hk m2) as [-> Hz2]. rewrite Hz1, Hz2 in Hz.
  by apply Hb.
Qed.

Lemma z_separates_bringToFront (i : string) (b : Board) :
  z_bounded b -> z_separates b -> z_separates (bringToFront i b).
Proof.
  intros Hzb Hb n1 n2 (m1 & -> & H1)%list_elem_of_fmap (m2 & -> & H2)%list_elem_of_fmap.
  pose proof (Hzb m1 H1) as B1. pose proof (Hzb m2 H2) as B2.
  destruct (decide (id m1 = i)) as [E1|E1], (decide (id m2 = i)) as [E2|E2]; cbn;
    intros Hz; try congruence; try lra. by apply Hb.
Qed.

Lemma z_separates_handle (b : Board) (ev : Event) :
  z_bounded b -> z_separates b -> z_separates (handle b ev).
Proof.
  intros Hzb Hb.
  destruct ev as [now r1 r2 r3|i|i c|i c|i|e rect c i|e c| |]; cbn.
  - intros n1 n2 H1 H2 Hz. cbn in H1, H2.
    apply elem_of_app in H1 as [H1|H1%list_elem_of_singleton];
      apply elem_of_app in H2 as [H2|H2%list_elem_of_singleton]; subst; cbn in *.
    + by apply Hb.
    + pose proof (Hzb n1 H1). lra.
    + pose proof (Hzb n2 H2). lra.
    + done.
  - intros n1 n2 [_ H1]%list_elem_of_filter [_ H2]%list_elem_of_filter. by apply Hb.
  - by apply z_separates_fmap_if.
  - by apply z_separates_fmap_if.
  - by apply z_separates_bringToFront.
  - unfold handleMouseDown. destruct c; [|done].
    by apply (z_separates_bringToFront i {| notes := notes b; maxZIndex := maxZIndex b |}).
  - unfold handleMouseMove. destruct (isDragging (dragState b)); [|done]. cbn.
    destruct (truthy_id (noteId (dragState b))); [|done]. destruct c; [|done].
    by apply z_separates_fmap_if.
  - done.
  - intros n1 n2 H1. by apply elem_of_nil in H1.
Qed.

Lemma z_separates_run (evs : list Event) : forall b,
  z_bounded b -> z_separates b -> z_separates (run b evs).
Proof.
  induction evs as [|ev evs IH]; intros b Hzb Hb; [done|].
  cbn [run foldl]. apply IH; [by apply z_bounded_handle|by apply z_separates_handle].
Qed.

(** From the empty board, when the notes are created at pairwise distinct
    clock readings, no two notes of the collection have the same z-index
    after any sequence of events: the stacking order is total. *)
Theorem stacking_order_total (evs : list Event) (k1 k2 : nat) (n1 n2 : Note) :
  NoDup (creation_times evs) ->
  notes (run (freshBoard []) evs) !! k1 = Some n1 ->
  notes (run (freshBoard []) evs) !! k2 = Some n2 ->
  k1 <> k2 ->
  ~ (zIndex n1 == zIndex n2)%Q.
Proof.
  intros Hnd H1 H2 Hk Hz.
  assert (z_separates (run (freshBoard []) evs)) as Hsep.
  { apply z_separates_run; [apply z_bounded_freshBoard_nil|].
    intros ? ? H. by apply elem_of_nil in H. }
  assert (NoDup (ids (run (freshBoard []) evs))) as Hids.
  { apply NoDup_ids_run. cbn. unfold created_ids.
    apply NoDup_fmap_2; [|done]. intros a a' Ha. by apply stamp_inj. }
  apply Hk. apply (NoDup_lookup _ k1 k2 (id n1) Hids); unfold ids.
  - by rewrite list_lookup_fmap, H1.
  - rewrite list_lookup_fmap, H2. cbn. f_equal. symmetry.
    apply Hsep; [by eapply list_elem_of_lookup_2..|done].
Qed.

Lemma stacking_order_total_witness :
  ~ (103 == 102)%Q.
Proof.
  apply (stacking_order_total
           [AddNote 1762075200000 0 0 0; AddNote 1762075200001 0 0 0;
            BringToFront "1762075200000"] 0 1
           {| id := "1762075200000"; content := "New note..."; x := 0; y := 0;
              width := 200; height := 200; color := "#FFE066"; zIndex := 103 |}
           {| id := "1762075200001"; content := "New note..."; x := 0; y := 0;
              width := 200; height := 200; color := "#FFE066"; zIndex := 102 |}).
  - apply NoDup_cons. split; [|apply NoDup_singleton].
    intros H%list_elem_of_singleton. discriminate.
  - vm_compute. reflexivity.
  - vm_compute. reflexivity.
  - lia.
Defined.

(** ** Dragging follows the pointer *)

Lemma Math_max_0_compat (a a' : number) :
  (a == a')%Q -> (Math_max 0 a == Math_max 0 a')%Q.
Proof.
  intros H. unfold Math_max.
  destruct (Qle_bool 0 a) eqn:E, (Qle_bool 0 a') eqn:E'; try done.
  - apply Qle_bool_iff in E. rewrite H in E. apply Qle_bool_iff in E. congruence.
  - apply Qle_bool_iff in E'. rewrite <- H in E'. apply Qle_bool_iff in E'. congruence.
Qed.

(** A press on a note followed by a move of the pointer moves the note by
    the displacement of the pointer, clamped at the left and top edges of
    the workspace, when the element of the note is laid out at the position
    of the note. The press has raised the note to the counter plus one; its
    text, size and color are kept. *)
Theorem drag_follows_pointer (b : Board) (e e' : MouseEvent) (rect c : DOMRect)
    (k : nat) (note : Note) :
  notes b !! k = Some note ->
  id note <> "" ->
  (left rect - left c == x note)%Q ->
  (top rect - top c == y note)%Q ->
  exists note',
    notes (handleMouseMove e' (Some c) (handleMouseDown e rect (Some c) (id note) b)) !! k
    = Some note'
    /\ (x note' == Math_max 0 (x note + (clientX e' - clientX e)))%Q
    /\ (y note' == Math_max 0 (y note + (clientY e' - clientY e)))%Q
    /\ id note' = id note /\ content note' = content note
    /\ color note' = color note
    /\ width note' = width note /\ height note' = height note
    /\ zIndex note' = (maxZIndex b + 1)%Q.
Proof.
  intros Hk Hid Hx Hy. destruct (id note) as [|a s] eqn:E; [done|].
  unfold handleMouseMove, handleMouseDown. cbn. rewrite !list_lookup_fmap, Hk. cbn.
  destruct (decide (id note = String a s)) as [_|?]; [|done]. cbn.
  rewrite decide_True by done. eexists. split; [done|]. cbn.
  split; [apply Math_max_0_compat; lra|]. split; [apply Math_max_0_compat; lra|done].
Qed.

Lemma drag_follows_pointer_witness :
  exists note',
    notes (handleMouseMove {| clientX := -30; clientY := -20 |}
             (Some {| left := 10; top := 20 |})
             (handleMouseDown {| clientX := 70; clientY := 80 |} {| left := 60; top := 70 |}
                (Some {| left := 10; top := 20 |}) (id corner_note)
                (freshBoard [corner_note]))) !! 0%nat
    = Some note'
    /\ (x note' == Math_max 0 (x corner_note + (-30 - 70)))%Q
    /\ (y note' == Math_max 0 (y corner_note + (-20 - 80)))%Q
    /\ id note' = id corner_note /\ content note' = content corner_note
    /\ color note' = color corner_note
    /\ width note' = width corner_note /\ height note' = height corner_note
    /\ zIndex note' = (100 + 1)%Q.
Proof.
  apply (drag_follows_pointer (freshBoard [corner_note])
           {| clientX := 70; clientY := 80 |} {| clientX := -30; clientY := -20 |}
           {| left := 60; top := 70 |} {| left := 10; top := 20 |} 0 corner_note).
  - reflexivity.
  - discriminate.
  - reflexivity.
  - reflexivity.
Defined.

(** ** Sessions keep the storage in step *)

Lemma sets_notes_false (b : Board) (ev : Event) :
  sets_notes b ev = false -> notes (handle b ev) = notes b.
Proof.
  destruct ev as [now r1 r2 r3|i|i c|i c|i|e rect c i|e c| |]; cbn; try done.
  - destruct c; [|done]. intros H. apply bool_decide_eq_false in H. by destruct H.
  - unfold handleMouseMove. destruct (isDragging (dragState b)); [|done]. cbn.
    destruct (truthy_id (noteId (dragState b))); [|done]. destruct c; [|done].
    intros H. exfalso. revert H. rewrite !bool_decide_eq_true_2 by eauto. done.
Qed.

Lemma dispatch_Ok (onNotesChange : bool) (st st' : World * Board) (ev : Event) :
  dispatch onNotesChange st ev = Ok st' ->
  snd st' = handle (snd st) ev
  /\ quota (localStorage (fst st')) = quota (localStorage (fst st))
  /\ (forall k, k <> "sticky-notes" ->
        getItem (localStorage (fst st')) k = getItem (localStorage (fst st)) k)
  /\ (synced st -> synced st').
Proof.
  destruct st as [w b]. unfold dispatch. cbn [fst snd].
  destruct (sets_notes b ev) eqn:Hs.
  - unfold saveEffect, setItem.
    destruct (usage _ <=? quota (localStorage w))%nat; [|done]. cbn.
    intros [= <-]. cbn. split; [done|]. split; [done|]. unfold synced, getItem. cbn.
    split; [|intros _; apply lookup_insert_eq].
    intros k Hk. by apply lookup_insert_ne.
  - intros [= <-]. cbn. split; [done|]. split; [done|]. split; [done|].
    unfold synced. cbn. by rewrite (sets_notes_false _ _ Hs).
Qed.

Lemma session_cons (st : World * Board) (ev : Event) (evs : list Event)
    (final : World * Board) :
  session st (ev :: evs) = Ok final ->
  exists st', dispatch false st ev = Ok st' /\ session st' evs = Ok final.
Proof.
  unfold session. cbn [foldl bind].
  destruct (dispatch false st ev) as [st'|e]; [by exists st'|].
  intros H. exfalso. revert H. clear. induction evs as [|ev' evs IH]; [done|].
  exact IH.
Qed.

Lemma session_Ok (evs : list Event) : forall st final,
  session st evs = Ok final ->
  snd final = run (snd st) evs
  /\ quota (localStorage (fst final)) = quota (localStorage (fst st))
  /\ (forall k, k <> "sticky-notes" ->
        getItem (localStorage (fst final)) k = getItem (localStorage (fst st)) k)
  /\ (synced st -> synced final).
Proof.
  induction evs as [|ev evs IH]; intros st final H.
  - injection H as <-. done.
  - apply session_cons in H as (st' & Hd & Hs).
    apply dispatch_Ok in Hd as (Hb & Hq & Hk & Hsync).
    apply IH in Hs as (Hb' & Hq' & Hk' & Hsync').
    split; [by rewrite Hb', Hb|]. split; [congruence|].
    split; [|tauto]. intros k Hne. by rewrite Hk', Hk.
Qed.

(** Through a session whose writes all succeed, the storage follows the
    board: when it held the snapshot of the notes at the start, it holds
    the snapshot of the notes at the end, whatever the events were. The
    board is the one the handlers compute; the quota and every other key
    of the storage are left as they were. *)
Theorem session_synced (evs : list Event) (st final : World * Board) :
  synced st ->
  session st evs = Ok final ->
  synced final
  /\ snd final = run (snd st) evs
  /\ quota (localStorage (fst final)) = quota (localStorage (fst st))
  /\ (forall k, k <> "sticky-notes" ->
        getItem (localStorage (fst final)) k = getItem (localStorage (fst st)) k).
Proof.
  intros Hsync H. apply session_Ok in H as (Hb & Hq & Hk & Hs). tauto.
Qed.

Lemma session_synced_witness :
  exists final,
    session ({| localStorage := stored "[]"; notified := [] |}, freshBoard []) drag_session
    = Ok final
    /\ synced final
    /\ snd final = run (freshBoard []) drag_session
    /\ quota (localStorage (fst final)) = 4096%nat
    /\ (forall k, k <> "sticky-notes" ->
          getItem (localStorage (fst final)) k = getItem (stored "[]") k).
Proof.
  eexists. split; [vm_compute; reflexivity|].
  apply (session_synced drag_session
           ({| localStorage := stored "[]"; notified := [] |}, freshBoard [])).
  - vm_compute. reflexivity.
  - vm_compute. reflexivity.
Defined.

Lemma mount_Ok (onNotesChange : bool) (w : World) (ns : list Note) (st : World * Board) :
  mount onNotesChange w ns = Ok st -> synced st /\ snd st = freshBoard ns.
Proof.
  unfold mount, saveEffect, setItem.
  destruct (usage _ <=? quota (localStorage w))%nat; [|done]. cbn.
  intros [= <-]. split; [|done]. unfold synced, getItem. cbn. apply lookup_insert_eq.
Qed.

Lemma Forall2_reread (ns : list Note) :
  Forall (fun note => finite_note note = true) ns ->
  Forall2 note_equiv ns (map reread_note ns).
Proof.
  induction 1 as [|note ns Hn Hns IH]; [constructor|].
  cbn [map]. constructor; [by apply reread_note_equiv|done].
Qed.

(** A session and a reload. A component mounts on a storage with notes
    whose numbers have a finite decimal expansion, and handles events with
    such inputs; if no write fails, a fresh component that mounts on the
    storage the session leaves starts with the notes the session ended
    with (equivalent notes, in the same order), its counter at 100 and no
    drag, whatever initial notes it is given. *)
Theorem session_reload (evs : list Event) (w0 : World) (ns initialNotes : list Note)
    (st final : World * Board) :
  Forall (fun note => finite_note note = true) ns ->
  Forall finite_event evs ->
  mount false w0 ns = Ok st ->
  session st evs = Ok final ->
  exists b',
    hydrate (localStorage (fst final)) initialNotes = Some b'
    /\ notes b' = map reread_note (notes (snd final))
    /\ Forall2 note_equiv (notes (snd final)) (notes b')
    /\ maxZIndex b' = 100%Q
    /\ dragState b' = idle.
Proof.
  intros Hns Hevs Hm Hs. apply mount_Ok in Hm as [Hsync Hb].
  apply session_Ok in Hs as (Hrun & _ & _ & Hfinal). specialize (Hfinal Hsync).
  assert (finite_board (snd final)) as (Hfin & _).
  { rewrite Hrun, Hb. apply finite_board_run; [done|]. unfold finite_board. cbn.
    by repeat split. }
  exists (freshBoard (map reread_note (notes (snd final)))).
  split; [|split; [done|split; [by apply Forall2_reread|done]]].
  unfold hydrate. rewrite (initNotes_snapshot _ (notes (snd final))) by done.
  by rewrite notes_of_js_to_js.
Qed.

Lemma session_reload_witness :
  exists final,
    session ({| localStorage := {| items := {["sticky-notes" := "[]"]}; quota := 4096 |};
                notified := [] |}, freshBoard []) drag_session = Ok final
    /\ exists b',
         hydrate (localStorage (fst final)) [corner_note] = Some b'
         /\ notes b' = map reread_note (notes (snd final))
         /\ Forall2 note_equiv (notes (snd final)) (notes b')
         /\ maxZIndex b' = 100%Q
         /\ dragState b' = idle.
Proof.
  eexists. split; [vm_compute; reflexivity|].
  apply (session_reload drag_session (empty_world 4096) [] [corner_note]
           ({| localStorage := {| items := {["sticky-notes" := "[]"]}; quota := 4096 |};
               notified := [] |}, freshBoard [])).
  - constructor.
  - repeat constructor.
  - vm_compute. reflexivity.
  - vm_compute. reflexivity.
Defined.

(** ** The view *)

Lemma keys_render (b : Board) : key <$> stickyNotes (render b) = ids b.
Proof.
  unfold ids. cbn. rewrite <- list_fmap_compose. by apply list_fmap_ext.
Qed.

Lemma NoDup_COLORS : NoDup COLORS.
Proof.
  apply (bool_decide_unpack (NoDup COLORS)). by vm_compute.
Qed.

Lemma NoDup_take_COLORS : NoDup (take 4 COLORS).
Proof. eapply sublist_NoDup; [apply NoDup_COLORS|apply sublist_take]. Qed.

Lemma dot_keys (note : Note) (l : list string) : dot_key <$> (renderDot note <$> l) = l.
Proof.
  rewrite <- list_fmap_compose. rewrite <- (list_fmap_id l) at 2. by apply list_fmap_ext.
Qed.

(** React asks for distinct keys among siblings. From the empty board,
    when the notes are created at pairwise distinct clock readings, the
    notes of the view have pairwise distinct keys after every sequence of
    events, and so have the dots of every color picker. *)
Theorem render_keys_unique (evs : list Event) :
  NoDup (creation_times evs) ->
  NoDup (key <$> stickyNotes (render (run (freshBoard []) evs)))
  /\ forall sn, sn ∈ stickyNotes (render (run (freshBoard []) evs)) ->
       NoDup (dot_key <$> colorPicker sn).
Proof.
  intros Hnd. split.
  - rewrite keys_render. apply NoDup_ids_run. cbn. unfold created_ids.
    apply NoDup_fmap_2; [|done]. intros a a' Ha. by apply stamp_inj.
  - intros sn (note & -> & _)%list_elem_of_fmap. cbn [colorPicker renderNote].
    rewrite dot_keys. apply NoDup_take_COLORS.
Qed.

Lemma render_keys_unique_witness :
  NoDup (key <$> stickyNotes (render (run (freshBoard []) five_notes)))
  /\ forall sn, sn ∈ stickyNotes (render (run (freshBoard []) five_notes)) ->
       NoDup (dot_key <$> colorPicker sn).
Proof.
  apply (render_keys_unique five_notes).
  apply (bool_decide_unpack (NoDup (creation_times five_notes))). by vm_compute.
Defined.

Lemma filter_eq_NoDup (c : string) (l : list string) :
  NoDup l ->
  filter (fun c' => c = c') l = if bool_decide (c ∈ l) then [c] else [].
Proof.
  induction 1 as [|c' l Hc' Hl IH]; [done|].
  destruct (decide (c = c')) as [<-|Hne].
  - rewrite filter_cons_True by done. rewrite bool_decide_eq_true_2 by left.
    f_equal. rewrite IH. by rewrite bool_decide_eq_false_2.
  - rewrite filter_cons_False by done. rewrite IH.
    rewrite (bool_decide_ext (c ∈ c' :: l) (c ∈ l)); [done|].
    rewrite elem_of_cons. naive_solver.
Qed.

Lemma selected_dots (note : Note) (l : list string) :
  NoDup l ->
  dot_key <$> filter (fun dot => dot_selected dot = true) (renderDot note <$> l)
  = (if bool_decide (color note ∈ l) then [color note] else []).
Proof.
  intros Hl. rewrite <- (filter_eq_NoDup (color note) l) by done. clear Hl.
  induction l as [|c l IH]; [done|]. cbn [fmap list_fmap].
  destruct (decide (color note = c)) as [Hc|Hc].
  - rewrite !filter_cons_True by (cbn; by rewrite ?bool_decide_eq_true_2).
    cbn. by rewrite <- IH.
  - rewrite !filter_cons_False by (cbn; rewrite ?bool_decide_eq_false_2; done). exact IH.
Qed.

(** The picker of a note shows the first four colors of the palette, in
    their order. The dot of the color of the note is the one selected;
    when the color of the note is none of the four, no dot is. *)
Theorem picker_selection (note : Note) :
  dot_key <$> colorPicker (renderNote note) = take 4 COLORS
  /\ dot_key <$> filter (fun dot => dot_selected dot = true) (colorPicker (renderNote note))
     = (if bool_decide (color note ∈ take 4 COLORS) then [color note] else []).
Proof.
  split; [apply dot_keys|apply selected_dots, NoDup_take_COLORS].
Qed.

(** ** The palette *)

Lemma Qfloor_unique (q : number) (k : Z) :
  (inject_Z k <= q)%Q -> (q < inject_Z k + 1)%Q -> Qfloor q = k.
Proof.
  intros Hle Hlt.
  assert (k <= Qfloor q) by (rewrite <- (Qfloor_Z k); by apply Qfloor_resp_le).
  assert (Qfloor q < k + 1).
  { rewrite Zlt_Qlt, inject_Z_plus. eapply Qle_lt_trans; [apply Qfloor_le|done]. }
  lia.
Qed.

Lemma pick_color_lookup (r : number) (k : nat) :
  (k < 8)%nat ->
  (inject_Z (Z.of_nat k) <= r * 8)%Q -> (r * 8 < inject_Z (Z.of_nat k) + 1)%Q ->
  COLORS !! k = Some (pick_color r).
Proof.
  intros Hk Hle Hlt. unfold pick_color, Array_get, Math_floor.
  change (inject_Z (Z.of_nat (length COLORS))) with 8%Q.
  rewrite Qfloor_Z, Qeq_bool_refl, (Qfloor_unique _ _ Hle Hlt).
  destruct (Z.leb_spec 0 (Z.of_nat k)) as [_|?]; [|lia]. cbn [andb].
  rewrite Nat2Z.id. do 8 (destruct k as [|k]; [done|]). lia.
Qed.

(** The random number chooses the color by eighths of the unit interval:
    a number in [k/8, (k+1)/8) gives the k-th color of the palette, so
    every color of the palette can be drawn, each on an interval of the
    same length. *)
Theorem pick_color_interval (r : number) (k : nat) :
  (k < 8)%nat ->
  (inject_Z (Z.of_nat k) / 8 <= r)%Q -> (r < (inject_Z (Z.of_nat k) + 1) / 8)%Q ->
  COLORS !! k = Some (pick_color r).
Proof.
  intros Hk Hle Hlt. unfold Qdiv in Hle, Hlt. change (/ 8)%Q with (1 # 8)%Q in Hle, Hlt.
  apply pick_color_lookup; [done| |]; lra.
Qed.

Lemma pick_color_interval_witness : COLORS !! 5%nat = Some (pick_color (11 # 16)).
Proof.
  apply (pick_color_interval (11 # 16) 5); [lia|unfold Qle; cbn; lia|unfold Qlt; cbn; lia].
Defined.

Lemma pick_color_upper_half (r : number) :
  (1 # 2 <= r)%Q -> (r < 1)%Q -> pick_color r ∉ take 4 COLORS.
Proof.
  intros Hle Hlt.
  assert (4 <= Qfloor (r * 8)) as H4.
  { rewrite <- (Qfloor_Z 4). apply Qfloor_resp_le. change (inject_Z 4) with 4%Q. lra. }
  assert (Qfloor (r * 8) < 8) as H8.
  { rewrite Zlt_Qlt. eapply Qle_lt_trans; [apply Qfloor_le|].
    change (inject_Z 8) with 8%Q. lra. }
  pose proof (pick_color_lookup r (Z.to_nat (Qfloor (r * 8)))) as Hk.
  rewrite Z2Nat.id in Hk by lia.
  specialize (Hk ltac:(lia) (Qfloor_le _)).
  pose proof (Qlt_floor (r * 8)) as Hf. rewrite inject_Z_plus in Hf.
  specialize (Hk Hf).
  assert (exists n, Z.to_nat (Qfloor (r * 8)) = n /\ (4 <= n < 8)%nat) as (n & Hn & Hb)
    by (eexists; split; [done|lia]).
  rewrite Hn in Hk. clear -Hk Hb.
  do 4 (destruct n as [|n]; [lia|]).
  do 4 (destruct n as [|n];
        [injection Hk as <-; cbn; rewrite !elem_of_cons, elem_of_nil; intros H;
         repeat destruct H as [H|H]; discriminate || done|]).
  lia.
Qed.

(** A note drawn in the upper half of the unit interval has one of the
    last four colors of the palette, which the picker does not show: no
    dot of the new note is selected. *)
Theorem new_note_unselected (now : Z) (r1 r2 r3 : number) (b : Board) :
  (1 # 2 <= r3)%Q -> (r3 < 1)%Q ->
  exists sn,
    last (stickyNotes (render (addNote now r1 r2 r3 b))) = Some sn
    /\ key sn = stamp now
    /\ filter (fun dot => dot_selected dot = true) (colorPicker sn) = [].
Proof.
  intros Hle Hlt. eexists. cbn [render stickyNotes addNote notes].
  rewrite fmap_app. change (renderNote <$> [?n]) with [renderNote n].
  rewrite last_snoc. split; [done|]. split; [done|].
  apply (fmap_nil_inv dot_key). cbn [colorPicker renderNote color].
  rewrite selected_dots by apply NoDup_take_COLORS.
  rewrite bool_decide_eq_false_2; [done|]. by apply pick_color_upper_half.
Qed.

Lemma new_note_unselected_witness :
  exists sn,
    last (stickyNotes (render (addNote 1 0 0 (3 # 4) (freshBoard [])))) = Some sn
    /\ key sn = stamp 1
    /\ filter (fun dot => dot_selected dot = true) (colorPicker sn) = [].
Proof.
  apply (new_note_unselected 1 0 0 (3 # 4) (freshBoard []));
    [unfold Qle; cbn; lia|unfold Qlt; cbn; lia].
Defined.

(** ** The cursor of the older variant *)

(** After a press on a note the cursor is "grabbing" over the notes of the
    pressed id and "grab" over the others; after the release, and whenever
    no drag is going on, it is "grab" over every note. *)
Theorem cursor_grabbing (b : Board) (e : MouseEvent) (rect c : DOMRect) (i : string)
    (note : Note) :
  (cursor (handleMouseDown e rect (Some c) i b) note = "grabbing" <-> id note = i)
  /\ (cursor (handleMouseDown e rect (Some c) i b) note = "grab" <-> id note <> i)
  /\ cursor (handleMouseUp b) note = "grab"
  /\ (isDragging (dragState b) = false -> cursor b note = "grab").
Proof.
  unfold cursor. cbn. repeat split.
  - case_bool_decide as H; [by injection H|done].
  - intros ->. by rewrite bool_decide_eq_true_2.
  - case_bool_decide as H; [done|]. intros _ Hi. apply H. by rewrite Hi.
  - intros Hi. rewrite bool_decide_eq_false_2; [done|]. intros [= H]. by apply Hi.
  - by intros ->.
Qed.

(** ** What the user can do *)

Lemma offered_elim (b : Board) (ev : Event) :
  offered b ev ->
  (exists now r1 r2 r3, ev = AddNote now r1 r2 r3
      /\ unit_interval r1 /\ unit_interval r2 /\ unit_interval r3)
  \/ (ev = ClearAllNotes /\ notes b <> [])
  \/ (exists note, note ∈ notes b
       /\ (ev = DeleteNote (id note)
           \/ (exists value, ev = UpdateNoteContent (id note) value)
           \/ (exists c, c ∈ take 4 COLORS /\ ev = UpdateNoteColor (id note) c)
           \/ (exists e rect containerRect, ev = MouseDown e rect containerRect (id note))))
  \/ (isDragging (dragState b) = true
      /\ (ev = MouseUp \/ exists e containerRect, ev = MouseMove e containerRect)).
Proof.
  intros [now r1 r2 r3 H1 H2 H3|ev' Hc|sn e rect cr Hsn|sn dot Hsn Hdot|sn Hsn|sn v Hsn
          |type handler e cr Hl].
  - left. by exists now, r1, r2, r3.
  - right. left. cbn in Hc. destruct (notes b); [done|]. by injection Hc as <-.
  - apply list_elem_of_fmap in Hsn as (note & -> & Hn). do 2 right. left.
    exists note. split; [done|]. do 3 right. by exists e, rect, cr.
  - apply list_elem_of_fmap in Hsn as (note & -> & Hn).
    cbn [colorPicker renderNote] in Hdot.
    apply list_elem_of_fmap in Hdot as (c & -> & Hc). do 2 right. left.
    exists note. split; [done|]. do 2 right. left. by exists c.
  - apply list_elem_of_fmap in Hsn as (note & -> & Hn). do 2 right. left.
    exists note. split; [done|]. by left.
  - apply list_elem_of_fmap in Hsn as (note & -> & Hn). do 2 right. left.
    exists note. split; [done|]. right. left. by exists v.
  - do 3 right. unfold listeners in Hl. destruct (isDragging (dragState b)).
    + split; [done|]. rewrite !elem_of_cons, elem_of_nil in Hl.
      destruct Hl as [[= -> ->]|[[= -> ->]|[]]]; [right; by exists e, cr|by left].
    + by apply elem_of_nil in Hl.
Qed.

(** Through the view and the listeners, a handler is only ever given the
    id of a note of the collection; a note is recolored only to one of
    the first four colors of the palette; the board is cleared only when
    it has a note; the handlers of the document run only during a drag;
    and [bringToFront] is never called on its own, only by
    [handleMouseDown]. *)
Theorem offered_targets (b : Board) (ev : Event) :
  offered b ev ->
  match ev with
  | AddNote _ r1 r2 r3 => unit_interval r1 /\ unit_interval r2 /\ unit_interval r3
  | DeleteNote i | UpdateNoteContent i _ | MouseDown _ _ _ i => i ∈ ids b
  | UpdateNoteColor i c => i ∈ ids b /\ c ∈ take 4 COLORS
  | BringToFront _ => False
  | MouseMove _ _ | MouseUp => isDragging (dragState b) = true
  | ClearAllNotes => notes b <> []
  end.
Proof.
  intros H. apply offered_elim in H
    as [(now & r1 & r2 & r3 & -> & H)|[[-> H]|[(note & Hn & H)|[Hd H]]]]; [done|done| |].
  - assert (id note ∈ ids b) by (unfold ids; by apply list_elem_of_fmap_2).
    destruct H as [->|[(v & ->)|[(c & Hc & ->)|(e & rect & cr & ->)]]]; done.
  - by destruct H as [->|(e & cr & ->)].
Qed.

Lemma offered_targets_witness :
  "1" ∈ ids (freshBoard [corner_note]) /\ "#4ECDC4" ∈ take 4 COLORS.
Proof.
  apply (offered_targets (freshBoard [corner_note]) (UpdateNoteColor "1" "#4ECDC4")).
  apply (offered_dot (freshBoard [corner_note]) (renderNote corner_note)
                     (renderDot corner_note "#4ECDC4")).
  - cbn. left.
  - cbn. right. right. left.
Defined.

Lemma stamp_nonempty (now : Z) : stamp now <> "".
Proof.
  unfold stamp. destruct (Number_toString_head (inject_Z now)) as (c & t & -> & _). done.
Qed.

Lemma well_formed_fmap_if (f : Note -> Note) (i : string) (b : Board) (m : number)
    (d : DragState) :
  (maxZIndex b <= m)%Q ->
  (forall note, well_formed b note ->
     id (f note) = id note /\ color (f note) ∈ COLORS
     /\ (0 <= x (f note))%Q /\ (0 <= y (f note))%Q
     /\ width (f note) = width note /\ height (f note) = height note
     /\ (100 < zIndex (f note))%Q /\ (zIndex (f note) <= m)%Q) ->
  (forall note, note ∈ notes b -> well_formed b note) ->
  forall note,
    note ∈ (fun n => if decide (id n = i) then f n else n) <$> notes b ->
    well_formed {| notes := (fun n => if decide (id n = i) then f n else n) <$> notes b;
                   maxZIndex := m; dragState := d |} note.
Proof.
  intros Hm Hf Hb note (n & -> & Hn)%list_elem_of_fmap.
  pose proof (Hb n Hn) as Hwf. destruct (decide (id n = i)).
  - destruct (Hf n Hwf) as (Hid & ? & ? & ? & Hw & Hh & ? & ?).
    destruct Hwf as (? & ? & ? & ? & ? & ? & ? & ?). unfold well_formed.
    rewrite Hid, Hw, Hh. by repeat split.
  - destruct Hwf as (? & ? & ? & ? & ? & ? & ? & ?). repeat split; try done. cbn.
    by eapply Qle_trans.
Qed.

Lemma ui_invariant_step (b : Board) (ev : Event) :
  ui_invariant b -> offered b ev -> ui_invariant (handle b ev).
Proof.
  intros (Hmax & Hnotes & Hdrag) Hev.
  apply offered_elim in Hev
    as [(now & r1 & r2 & r3 & -> & [H1 _] & [H2 _] & H3)|[[-> H]|[(note & Hn & H)|[Hd H]]]].
  - split; [cbn; lra|]. split; [|done]. cbn. intros n Hin.
    apply elem_of_app in Hin as [Hin|Hin%list_elem_of_singleton].
    + destruct (Hnotes n Hin) as (? & ? & ? & ? & ? & ? & ? & ?).
      repeat split; try done. cbn. lra.
    + subst n. repeat split; cbn; try done.
      * apply stamp_nonempty.
      * by apply pick_color_in_palette.
      * apply Qmult_le_0_compat; [done|unfold Qle; cbn; lia].
      * apply Qmult_le_0_compat; [done|unfold Qle; cbn; lia].
      * lra.
      * lra.
  - split; [done|]. split; [|done]. intros n Hin. by apply elem_of_nil in Hin.
  - destruct H as [->|[(v & ->)|[(c & Hc & ->)|(e & rect & cr & ->)]]].
    + split; [done|]. split; [|done]. cbn. intros n [_ Hin]%list_elem_of_filter.
      by apply Hnotes.
    + split; [done|]. split; [|done]. cbn [handle updateNoteContent notes].
      apply well_formed_fmap_if; [lra| |done].
      intros n (? & ? & ? & ? & ? & ? & ? & ?). by repeat split.
    + split; [done|]. split; [|done]. cbn [handle updateNoteColor notes].
      apply well_formed_fmap_if; [lra| |done].
      intros n (? & ? & ? & ? & ? & ? & ? & ?). repeat split; try done. cbn.
      by apply (subseteq_take 4 COLORS).
    + cbn [handle]. unfold handleMouseDown. destruct cr as [c|]; [|done].
      unfold bringToFront. cbn [notes maxZIndex dragState].
      split; [cbn; lra|]. split.
      * apply (well_formed_fmap_if _ _ b); [lra| |done].
        intros n (? & ? & ? & ? & ? & ? & ? & ?). repeat split; try done; cbn; lra.
      * right. exists (id note). split; [by destruct (Hnotes note Hn)|done].
  - destruct H as [->|(e & cr & ->)].
    + split; [done|]. split; [done|]. by left.
    + cbn [handle]. unfold handleMouseMove. rewrite Hd. cbn [negb].
      destruct (truthy_id (noteId (dragState b))) as [i|]; [|done].
      destruct cr as [c|]; [|done]. split; [done|]. split; [|done].
      cbn [notes]. apply well_formed_fmap_if; [lra| |done].
      intros n (? & ? & ? & ? & ? & ? & ? & ?).
      repeat split; try done; cbn; apply Math_max_0_nonneg.
Qed.

Lemma ui_reachable_invariant (b : Board) : ui_reachable b -> ui_invariant b.
Proof.
  induction 1 as [|b ev Hb IH Hev]; [|by apply ui_invariant_step].
  split; [cbn; lra|]. split; [|by left]. intros n Hin. by apply elem_of_nil in Hin.
Qed.

(** Every note that the user can bring about from the empty board is
    well formed: it has a non-empty id, a color of the palette, a position
    at or after the origin of the workspace, the size 200 by 200, and a
    z-index above 100 that the counter bounds. *)
Theorem ui_notes_well_formed (b : Board) (note : Note) :
  ui_reachable b -> note ∈ notes b -> well_formed b note.
Proof.
  intros Hb Hn. apply ui_reachable_invariant in Hb as (_ & Hnotes & _). by apply Hnotes.
Qed.

Lemma ui_notes_well_formed_witness :
  well_formed (handle (freshBoard []) (AddNote 1 (3 # 8) (1 # 5) 0)) first_note.
Proof.
  apply (ui_notes_well_formed (handle (freshBoard []) (AddNote 1 (3 # 8) (1 # 5) 0))
                              first_note).
  - apply (ui_step (freshBoard []) (AddNote 1 (3 # 8) (1 # 5) 0) ui_start).
    apply (offered_addNote (freshBoard []) 1 (3 # 8) (1 # 5) 0);
      split; unfold Qle, Qlt; cbn; lia.
  - cbn. left.
Defined.

(** On every board that the user reaches from the empty board, either no
    drag is going on and the drag state is the idle one, or a drag is
    active on a non-empty id: the guard of [handleMouseMove] on the id
    never stops a move, and the listeners of the document are attached
    exactly then. *)
Theorem ui_drag_state (b : Board) :
  ui_reachable b ->
  (dragState b = idle /\ listeners b = [])
  \/ (exists i, dragging b i /\ length (listeners b) = 2%nat).
Proof.
  intros Hb. apply ui_reachable_invariant in Hb as (_ & _ & [Hd|(i & Hi & Hd & Hn)]).
  - left. unfold listeners. by rewrite Hd.
  - right. exists i. unfold dragging, listeners. rewrite Hd, Hn. repeat split.
    by destruct i.
Qed.

(** The start, where no drag is going on, and the board after a creation
    and a press on the new note, where one is. *)
Lemma ui_drag_state_witness :
  ((dragState (freshBoard []) = idle /\ listeners (freshBoard []) = [])
   \/ (exists i, dragging (freshBoard []) i /\ length (listeners (freshBoard [])) = 2%nat))
  /\ exists i,
       dragging (handle (handle (freshBoard []) (AddNote 1 (3 # 8) (1 # 5) 0))
                        (MouseDown {| clientX := 130; clientY := 65 |}
                                   {| left := 245 # 2; top := 60 |}
                                   (Some {| left := 10; top := 20 |}) (stamp 1))) i
       /\ length (listeners
                    (handle (handle (freshBoard []) (AddNote 1 (3 # 8) (1 # 5) 0))
                            (MouseDown {| clientX := 130; clientY := 65 |}
                                       {| left := 245 # 2; top := 60 |}
                                       (Some {| left := 10; top := 20 |}) (stamp 1))))
          = 2%nat.
Proof.
  split; [apply (ui_drag_state (freshBoard [])), ui_start|].
  destruct (ui_drag_state
              (handle (handle (freshBoard []) (AddNote 1 (3 # 8) (1 # 5) 0))
                      (MouseDown {| clientX := 130; clientY := 65 |}
                                 {| left := 245 # 2; top := 60 |}
                                 (Some {| left := 10; top := 20 |}) (stamp 1))))
    as [[Hidle _]|H]; [|discriminate Hidle|exact H].
  apply (ui_step (handle (freshBoard []) (AddNote 1 (3 # 8) (1 # 5) 0))
                 (MouseDown {| clientX := 130; clientY := 65 |}
                            {| left := 245 # 2; top := 60 |}
                            (Some {| left := 10; top := 20 |}) (stamp 1))).
  - apply (ui_step (freshBoard []) (AddNote 1 (3 # 8) (1 # 5) 0) ui_start).
    apply (offered_addNote (freshBoard []) 1 (3 # 8) (1 # 5) 0);
      split; unfold Qle, Qlt; cbn; lia.
  - apply (offered_mouseDown (handle (freshBoard []) (AddNote 1 (3 # 8) (1 # 5) 0))
             (renderNote first_note)).
    cbn. left.
Defined.

(** ** Clearing the board *)

(** Clearing the board, when the storage has room for the text of the
    empty array: the collection is empty, the counter keeps its value, the
    storage holds "[]", and a component that mounts on that storage starts
    with no note whatever initial notes it is given, because the stored
    text is not empty. *)
Theorem clearAll_then_reload (onNotesChange : bool) (w : World) (b : Board)
    (initialNotes : list Note) :
  (usage (<["sticky-notes" := "[]"]> (items (localStorage w))) <= quota (localStorage w))%nat ->
  exists w',
    dispatch onNotesChange (w, b) ClearAllNotes = Ok (w', clearAllNotes b)
    /\ notes (clearAllNotes b) = []
    /\ maxZIndex (clearAllNotes b) = maxZIndex b
    /\ getItem (localStorage w') "sticky-notes" = Some "[]"
    /\ hydrate (localStorage w') initialNotes = Some (freshBoard []).
Proof.
  intros Hfit.
  destruct (saveEffect_fits onNotesChange [] w Hfit) as (w' & Hsave & Hget).
  change (JSON_stringify (notes_to_js [])) with "[]" in Hget.
  exists w'. unfold dispatch. cbn [sets_notes fst snd handle clearAllNotes notes].
  rewrite Hsave. repeat split; [done|].
  unfold hydrate, initNotes. rewrite Hget. by vm_compute.
Qed.

Lemma clearAll_then_reload_witness :
  exists w',
    dispatch true (empty_world 20, freshBoard [corner_note]) ClearAllNotes
    = Ok (w', clearAllNotes (freshBoard [corner_note]))
    /\ notes (clearAllNotes (freshBoard [corner_note])) = []
    /\ maxZIndex (clearAllNotes (freshBoard [corner_note]))
       = maxZIndex (freshBoard [corner_note])
    /\ getItem (localStorage w') "sticky-notes" = Some "[]"
    /\ hydrate (localStorage w') [corner_note] = Some (freshBoard []).
Proof.
  apply (clearAll_then_reload true (empty_world 20) (freshBoard [corner_note]) [corner_note]).
  vm_compute. lia.
Defined.

(** ** The toolbar *)

(** The view is consistent with itself: the message of the empty board is
    shown exactly when no note is, and the button that clears the board
    exactly when a note is; the view has one element for every note, in
    the order of the collection; the label counts the notes, "1 note" in
    the singular and with an s otherwise. *)
Theorem render_consistent (b : Board) :
  (emptyState (render b) = true <-> stickyNotes (render b) = [])
  /\ (clearAllBtn (render b) = None <-> stickyNotes (render b) = [])
  /\ (clearAllBtn (render b) = Some ClearAllNotes <-> stickyNotes (render b) <> [])
  /\ key <$> stickyNotes (render b) = ids b
  /\ (length (notes b) = 1%nat -> notesCount (render b) = "1 note")
  /\ (length (notes b) <> 1%nat ->
      notesCount (render b)
      = Number_toString (inject_Z (Z.of_nat (length (notes b)))) ++ " notes").
Proof.
  split; [|split; [|split; [|split; [apply keys_render|split]]]].
  - cbn. destruct (notes b); by cbn.
  - cbn. destruct (notes b); by cbn.
  - cbn. destruct (notes b); by cbn.
  - cbn. by intros ->.
  - cbn. intros H. apply Nat.eqb_neq in H. by rewrite H.
Qed.

(** The label of the toolbar shows the number of notes without ambiguity:
    two boards with the same label have the same number of notes. *)
Theorem notesCount_faithful (b1 b2 : Board) :
  notesCount (render b1) = notesCount (render b2) ->
  length (notes b1) = length (notes b2).
Proof.
  assert (forall b, exists rest,
            number_end rest
            /\ notesCount (render b)
               = Number_toString (inject_Z (Z.of_nat (length (notes b)))) ++ rest) as Hlabel.
  { intros b. cbn [render notesCount].
    destruct (length (notes b) =? 1)%nat; eexists; (split; [|reflexivity]); done. }
  destruct (Hlabel b1) as (rest1 & Hr1 & ->), (Hlabel b2) as (rest2 & Hr2 & ->).
  intros Heq. apply (f_equal parse_number) in Heq.
  rewrite !parse_number_reread in Heq by (done || apply finite_decimal_inject_Z).
  injection Heq as Heq _.
  pose proof (reread_equiv _ (finite_decimal_inject_Z (Z.of_nat (length (notes b1))))) as H1.
  pose proof (reread_equiv _ (finite_decimal_inject_Z (Z.of_nat (length (notes b2))))) as H2.
  rewrite Heq, H2 in H1. unfold Qeq in H1. cbn in H1. lia.
Qed.

Lemma notesCount_faithful_witness :
  length (notes (freshBoard [corner_note])) = length (notes (freshBoard [first_note])).
Proof.
  apply (notesCount_faithful (freshBoard [corner_note]) (freshBoard [first_note])).
  reflexivity.
Defined.

(** ** Raising an absent note *)

(** Unlike an edit or a deletion, raising an id that no note has is not
    without effect: the notes are kept, but [bringToFront] still advances
    the counter, and [handleMouseDown] also starts a drag on the absent
    id. The moves of such a drag change nothing. *)
Theorem absent_id_raise (b : Board) (e e' : MouseEvent) (rect c c' : DOMRect)
    (i : string) :
  i ∉ ids b ->
  notes (bringToFront i b) = notes b
  /\ maxZIndex (bringToFront i b) = (maxZIndex b + 1)%Q
  /\ notes (handleMouseDown e rect (Some c) i b) = notes b
  /\ maxZIndex (handleMouseDown e rect (Some c) i b) = (maxZIndex b + 1)%Q
  /\ isDragging (dragState (handleMouseDown e rect (Some c) i b)) = true
  /\ noteId (dragState (handleMouseDown e rect (Some c) i b)) = Some i
  /\ handleMouseMove e' (Some c') (handleMouseDown e rect (Some c) i b)
     = handleMouseDown e rect (Some c) i b.
Proof.
  intros Hi. unfold ids in Hi.
  assert (notes (bringToFront i b) = notes b) as Hn
    by (cbn; by apply fmap_if_absent).
  split; [done|]. split; [done|]. split; [done|]. split; [done|].
  split; [done|]. split; [done|].
  unfold handleMouseMove, handleMouseDown, bringToFront.
  cbn [dragState isDragging noteId negb notes maxZIndex offset].
  destruct (truthy_id (Some i)) as [j|] eqn:Hj; [|done].
  assert (j = i) as -> by (destruct i as [|a i]; cbn in Hj; congruence).
  f_equal. rewrite (fmap_if_absent _ i (notes b)) by done. by apply fmap_if_absent.
Qed.

Lemma absent_id_raise_witness :
  notes (bringToFront "2" (freshBoard [corner_note])) = notes (freshBoard [corner_note])
  /\ maxZIndex (bringToFront "2" (freshBoard [corner_note])) = (100 + 1)%Q
  /\ notes (handleMouseDown {| clientX := 70; clientY := 80 |} {| left := 60; top := 70 |}
              (Some {| left := 10; top := 20 |}) "2" (freshBoard [corner_note]))
     = notes (freshBoard [corner_note])
  /\ maxZIndex (handleMouseDown {| clientX := 70; clientY := 80 |} {| left := 60; top := 70 |}
                  (Some {| left := 10; top := 20 |}) "2" (freshBoard [corner_note]))
     = (100 + 1)%Q
  /\ isDragging (dragState (handleMouseDown {| clientX := 70; clientY := 80 |}
                              {| left := 60; top := 70 |}
                              (Some {| left := 10; top := 20 |}) "2"
                              (freshBoard [corner_note]))) = true
  /\ noteId (dragState (handleMouseDown {| clientX := 70; clientY := 80 |}
                          {| left := 60; top := 70 |}
                          (Some {| left := 10; top := 20 |}) "2"
                          (freshBoard [corner_note]))) = Some "2"
  /\ handleMouseMove {| clientX := 0; clientY := 0 |} (Some {| left := 10; top := 20 |})
       (handleMouseDown {| clientX := 70; clientY := 80 |} {| left := 60; top := 70 |}
          (Some {| left := 10; top := 20 |}) "2" (freshBoard [corner_note]))
     = handleMouseDown {| clientX := 70; clientY := 80 |} {| left := 60; top := 70 |}
         (Some {| left := 10; top := 20 |}) "2" (freshBoard [corner_note]).
Proof.
  apply (absent_id_raise (freshBoard [corner_note])
           {| clientX := 70; clientY := 80 |} {| clientX := 0; clientY := 0 |}
           {| left := 60; top := 70 |} {| left := 10; top := 20 |}
           {| left := 10; top := 20 |} "2").
  cbn. rewrite elem_of_cons, elem_of_nil. intros [H|[]]. discriminate.
Defined.

(** ** Creating and deleting *)

(** Creating a note and deleting it again gives back the notes there
    were, when the id that the clock gives is not the id of a note of
    the board; the counter has advanced by one. *)
Theorem add_then_delete (now : Z) (r1 r2 r3 : number) (b : Board) :
  stamp now ∉ ids b ->
  notes (deleteNote (stamp now) (addNote now r1 r2 r3 b)) = notes b
  /\ maxZIndex (deleteNote (stamp now) (addNote now r1 r2 r3 b)) = (maxZIndex b + 1)%Q
  /\ dragState (deleteNote (stamp now) (addNote now r1 r2 r3 b)) = dragState b.
Proof.
  intros Hi. split; [|done]. cbn. rewrite filter_app, filter_if_absent by done.
  rewrite filter_cons_False by (cbn; tauto). rewrite filter_nil. apply app_nil_r.
Qed.

Lemma add_then_delete_witness :
  notes (deleteNote (stamp 2) (addNote 2 0 0 0 (freshBoard [first_note])))
  = notes (freshBoard [first_note])
  /\ maxZIndex (deleteNote (stamp 2) (addNote 2 0 0 0 (freshBoard [first_note])))
     = (100 + 1)%Q
  /\ dragState (deleteNote (stamp 2) (addNote 2 0 0 0 (freshBoard [first_note])))
     = dragState (freshBoard [first_note]).
Proof.
  apply (add_then_delete 2 0 0 0 (freshBoard [first_note])).
  intros H. apply list_elem_of_In in H. vm_compute in H. destruct H as [H|[]].
  discriminate.
Defined.

(** ** Edits in the view *)

(** What is typed is what is shown. After [updateNoteContent] the text
    area of every note of the given id holds the new text, and after
    [updateNoteColor] every note of the given id has the new background;
    the elements of the other notes are the ones of before, and the
    keys of the view are kept. *)
Theorem edit_shown (b : Board) (i text c : string) (k : nat) (note : Note) :
  notes b !! k = Some note ->
  (id note = i ->
     (exists sn, stickyNotes (render (updateNoteContent i text b)) !! k = Some sn
                 /\ key sn = i /\ textarea_value sn = text
                 /\ style_backgroundColor sn = color note)
     /\ (exists sn, stickyNotes (render (updateNoteColor i c b)) !! k = Some sn
                    /\ key sn = i /\ style_backgroundColor sn = c
                    /\ textarea_value sn = content note))
  /\ (id note <> i ->
        stickyNotes (render (updateNoteContent i text b)) !! k = Some (renderNote note)
        /\ stickyNotes (render (updateNoteColor i c b)) !! k = Some (renderNote note)).
Proof.
  intros Hk. cbn [render stickyNotes updateNoteContent updateNoteColor notes].
  rewrite !list_lookup_fmap, Hk. cbn [fmap option_fmap option_map].
  split; intros Hi.
  - rewrite !decide_True by done. split; eexists; (split; [done|]); by cbn.
  - by rewrite !decide_False by done.
Qed.

Lemma edit_shown_witness :
  (id corner_note = "1" ->
     (exists sn, stickyNotes (render (updateNoteContent "1" "milk" (freshBoard [corner_note])))
                   !! 0%nat = Some sn
                 /\ key sn = "1" /\ textarea_value sn = "milk"
                 /\ style_backgroundColor sn = color corner_note)
     /\ (exists sn, stickyNotes (render (updateNoteColor "1" "#FF6B6B" (freshBoard [corner_note])))
                      !! 0%nat = Some sn
                    /\ key sn = "1" /\ style_backgroundColor sn = "#FF6B6B"
                    /\ textarea_value sn = content corner_note))
  /\ (id corner_note <> "1" ->
        stickyNotes (render (updateNoteContent "1" "milk" (freshBoard [corner_note]))) !! 0%nat
        = Some (renderNote corner_note)
        /\ stickyNotes (render (updateNoteColor "1" "#FF6B6B" (freshBoard [corner_note])))
             !! 0%nat
           = Some (renderNote corner_note)).
Proof.
  apply (edit_shown (freshBoard [corner_note]) "1" "milk" "#FF6B6B" 0 corner_note).
  reflexivity.
Defined.
